(** * servicegroup: graceful start-up and shutdown of a group of HTTP workers

    A verification development for [servicegroup.go].  The Go code is
    embedded shallowly:

    - a worker ([func(stop <-chan struct{}) error]) is a function from the
      stop channel to a program in a small monad of external calls
      ([log.Printf], [http.Server.ListenAndServe], [Shutdown], [Close],
      [<-stop], [signal.Notify], [select]);
    - the outside world ([net/http], the operating system) is an oracle
      [Env] that answers every call from the history of calls so far;
    - goroutines are threads of a pool that a scheduler interleaves one
      external call at a time. *)

From stdpp Require Import base option list strings.
From Stdlib Require Import ZArith Lia.

Local Open Scope Z_scope.

(** ** Go base types *)

(** [error]: an interface value, [nil] or an error with its [Error()] text. *)
Definition error : Type := option string.

(** [fmt.Errorf] never returns [nil]. *)
Definition fmt_Errorf (msg : string) : error := Some msg.

(** What [%s] and [log.Print] show for an error value. *)
Definition Error (e : error) : string :=
  match e with
  | Some msg => msg
  | None => "<nil>"
  end.

(** [time.Duration]: a count of nanoseconds. *)
Definition Duration : Type := Z.
Definition time_Second : Duration := 1000000000.

(** [*http.Server]: the address of a server in the store of servers. *)
Definition ptr : Type := nat.

(** [<-chan struct{}]: the identity of a channel that is only ever closed. *)
Definition chan : Type := nat.

(** [os.Signal].  [signal.Notify] below subscribes to the first two only. *)
Inductive Signal : Type :=
| SIGINT
| SIGTERM
| SIGOTHER (n : nat).

Global Instance Signal_eq_dec : EqDecision Signal.
Proof. solve_decision. Defined.

(** [context.Context] as far as [Shutdown] looks at it: the time left. *)
Record context_Context : Type := { ctx_timeout : Duration }.

Definition context_WithTimeout (d : Duration) : context_Context :=
  {| ctx_timeout := d |}.

(** ** External calls and the program monad *)

Inductive Call : Type -> Type :=
| Log (msg : string) : Call unit
| Server_ListenAndServe (server : ptr) : Call error
| Server_Shutdown (server : ptr) (ctx : context_Context) : Call error
| Server_Close (server : ptr) : Call error
| chan_Recv (stop : chan) : Call unit
| signal_Notify (sigs : list Signal) : Call unit
| select_Stop_Interrupt (stop : chan) : Call (unit + Signal).

Inductive Prog (A : Type) : Type :=
| Ret (a : A)
| Vis {X : Type} (c : Call X) (k : X -> Prog A).

Arguments Ret {A} a.
Arguments Vis {A X} c k.

Fixpoint bind {A B : Type} (p : Prog A) (f : A -> Prog B) : Prog B :=
  match p with
  | Ret a => f a
  | Vis c k => Vis c (fun x => bind (k x) f)
  end.

Definition call {X : Type} (c : Call X) : Prog X := Vis c Ret.

Global Instance Prog_ret : MRet Prog := @Ret.
Global Instance Prog_bind : MBind Prog := fun A B f p => bind p f.

(** [log.Printf] with its arguments already formatted, and [log.Print]. *)
Definition log_Printf (msg : string) : Prog unit := call (Log msg).
Definition log_Print (e : error) : Prog unit := call (Log (Error e)).

(** A goroutine body registered with the group:
    [func(stop <-chan struct{}) error]. *)
Definition Worker : Type := chan -> Prog error.

(** Where a program stands when it is run alone. *)
Inductive Outcome (A : Type) : Type :=
| Done (a : A)
| Blocked (p : Prog A).

Arguments Done {A} a.
Arguments Blocked {A} p.

(** ** The world *)

(** What happened, in order.  Calls on a server carry their result. *)
Inductive Event : Type :=
| EvLog (msg : string)
| EvListenAndServe (server : ptr) (ret : error)
| EvShutdown (server : ptr) (deadline : Duration) (ret : error)
| EvClose (server : ptr) (ret : error)
| EvNotify (sigs : list Signal)
| EvSignal (sig : Signal).

Section World.

(** [http.Handler] is opaque to this package. *)
Context {Handler_t : Type}.

(** [http.Server], the fields this package sets.  [srv_Handler = None] is
    the nil handler (the default ServeMux). *)
Record http_Server : Type := {
  srv_Addr : string;
  srv_Handler : option Handler_t;
  srv_ReadHeaderTimeout : Duration;
  srv_WriteTimeout : Duration;
  srv_IdleTimeout : Duration;
}.

Record World : Type := {
  trace : list Event;             (* history of calls *)
  heap : list http_Server;        (* servers allocated so far *)
  closed : list chan;             (* channels that have been closed *)
  subscribed : list Signal;       (* signals relayed to the interrupt channel *)
}.

(** The outside: every answer is a function of the history. *)
Record Env : Type := {
  (* [None]: the server is still serving, the call has not returned *)
  listen_ret : list Event -> ptr -> option error;
  shutdown_ret : list Event -> ptr -> Duration -> error;
  close_ret : list Event -> ptr -> error;
  (* a signal the operating system has for the process *)
  pending_signal : list Event -> option Signal;
  (* which ready case a [select] picks when both are ready *)
  select_stop_first : list Event -> bool;
}.

Definition record (ev : Event) (w : World) : World :=
  {| trace := trace w ++ [ev]; heap := heap w;
     closed := closed w; subscribed := subscribed w |}.

Definition is_closed (c : chan) (w : World) : bool :=
  bool_decide (c ∈ closed w).

(** [close(c)], a no-op on a channel already closed (the group closes its
    stop channel once). *)
Definition close_chan (c : chan) (w : World) : World :=
  if is_closed c w then w
  else {| trace := trace w; heap := heap w;
          closed := c :: closed w; subscribed := subscribed w |}.

(** [&http.Server{...}] *)
Definition new_Server (s : http_Server) (w : World) : ptr * World :=
  (length (heap w),
   {| trace := trace w; heap := heap w ++ [s];
      closed := closed w; subscribed := subscribed w |}).

(** The signal ready on the interrupt channel, if any. *)
Definition interrupt_ready (env : Env) (w : World) : option Signal :=
  match pending_signal env (trace w) with
  | Some sig => if bool_decide (sig ∈ subscribed w) then Some sig else None
  | None => None
  end.

(** One external call: its result and the new world, or [None] while the
    call blocks. *)
Definition handle (env : Env) {X : Type} (c : Call X) (w : World)
  : option (X * World) :=
  match c in Call X return option (X * World) with
  | Log msg => Some (tt, record (EvLog msg) w)
  | Server_ListenAndServe server =>
      match listen_ret env (trace w) server with
      | Some ret => Some (ret, record (EvListenAndServe server ret) w)
      | None => None
      end
  | Server_Shutdown server ctx =>
      let ret := shutdown_ret env (trace w) server (ctx_timeout ctx) in
      Some (ret, record (EvShutdown server (ctx_timeout ctx) ret) w)
  | Server_Close server =>
      let ret := close_ret env (trace w) server in
      Some (ret, record (EvClose server ret) w)
  | chan_Recv stop =>
      if is_closed stop w then Some (tt, w) else None
  | signal_Notify sigs =>
      Some (tt, {| trace := trace w ++ [EvNotify sigs]; heap := heap w;
                   closed := closed w; subscribed := sigs ++ subscribed w |})
  | select_Stop_Interrupt stop =>
      match is_closed stop w, interrupt_ready env w with
      | true, Some sig =>
          if select_stop_first env (trace w) then Some (inl tt, w)
          else Some (inr sig, record (EvSignal sig) w)
      | true, None => Some (inl tt, w)
      | false, Some sig => Some (inr sig, record (EvSignal sig) w)
      | false, None => None
      end
  end.

(** Run a program until it returns or blocks. *)
Fixpoint exec (env : Env) {A : Type} (p : Prog A) (w : World)
  : Outcome A * World :=
  match p with
  | Ret a => (Done a, w)
  | Vis c k =>
      match handle env c w with
      | Some (x, w') => exec env (k x) w'
      | None => (Blocked p, w)
      end
  end.

End World.

Arguments http_Server : clear implicits.
Arguments World : clear implicits.

(** ** The task group (package [workgroup]) *)

Module workgroup.
Section TaskGroup.

Context {Handler_t : Type}.

(** Modelled from the spec: the embedded [workgroup.Group] is imported, its
    source is not part of this package.  A group owns the tasks registered
    so far, identified by registration order only. *)
Record Group : Type := { fn : list Worker }.

(** Modelled from the spec: [Add(task)] registers a task before the group
    starts. *)
Definition Add (g : Group) (f : Worker) : Group := {| fn := fn g ++ [f] |}.

(** Modelled from the spec: a task in its own execution context is either
    still running (what is left of it) or has returned its outcome. *)
Inductive Thread : Type :=
| Running (p : Prog error)
| Returned (o : error).

Definition is_Returned (t : Thread) : bool :=
  match t with
  | Returned _ => true
  | Running _ => false
  end.

(** Modelled from the spec: a group run owns the tasks, the Stop Signal and
    the Group Result slot; the world is what the tasks share with the
    outside. *)
Record Running_Group : Type := {
  tasks : list Thread;
  stop : chan;
  result : option error;
  world : World Handler_t;
}.

(** Modelled from the spec: the Stop Signal of a run is constructed not
    stopped; as a channel, one that nobody has closed. *)
Definition make_chan (w : World Handler_t) : chan := S (max_list (closed w)).

(** Modelled from the spec, algorithm step 1: every registered task is
    started in its own execution context with a view of the Stop Signal;
    the result slot is empty. *)
Definition launch (g : Group) (w : World Handler_t) : Running_Group :=
  let stop := make_chan w in
  {| tasks := map (fun f => Running (f stop)) (fn g);
     stop := stop;
     result := None;
     world := w |}.

(** Modelled from the spec, algorithm steps 2 and 3: the scheduler lets
    task [i] move.  A task that returns records its value in the result
    slot if the slot is still empty and raises the Stop Signal (raising it
    again is a no-op); a task at an external call performs it, unless the
    call blocks, in which case nothing moves. *)
Definition step (env : Env) (i : nat) (s : Running_Group)
  : option Running_Group :=
  match tasks s !! i with
  | Some (Running (Ret o)) =>
      Some {| tasks := <[i := Returned o]> (tasks s);
              stop := stop s;
              result := match result s with
                        | None => Some o
                        | Some first => Some first
                        end;
              world := close_chan (stop s) (world s) |}
  | Some (Running (Vis c k)) =>
      match handle env c (world s) with
      | Some (x, w') =>
          Some {| tasks := <[i := Running (k x)]> (tasks s);
                  stop := stop s;
                  result := result s;
                  world := w' |}
      | None => None
      end
  | Some (Returned _) | None => None
  end.

(** Modelled from the spec: the tasks run concurrently, so a run is an
    interleaving of their moves: the tasks the scheduler picks, in order.
    Picking a task that cannot move changes nothing. *)
Fixpoint run (env : Env) (sched : list nat) (s : Running_Group)
  : Running_Group :=
  match sched with
  | [] => s
  | i :: sched' => run env sched' (default s (step env i s))
  end.

(** Modelled from the spec, algorithm step 4: the group has drained when
    every task has returned. *)
Definition drained (s : Running_Group) : bool := forallb is_Returned (tasks s).

(** Modelled from the spec, algorithm step 5: the caller of [Run] is
    blocked ([None]) until the group has drained, and then gets the
    recorded first result. *)
Definition Run_result (s : Running_Group) : option error :=
  if drained s then result s else None.

(** Modelled from the spec: [Run()] under a given interleaving, what the
    caller has got when the schedule is used up, and the world then. *)
Definition Run (env : Env) (sched : list nat) (g : Group) (w : World Handler_t)
  : option error * World Handler_t :=
  let s := run env sched (launch g w) in
  (Run_result s, world s).

(** The first task to terminate under an interleaving, read off the
    execution itself: the first scheduled task that was at its return. *)
Fixpoint first_to_terminate (env : Env) (sched : list nat) (s : Running_Group)
  : option (nat * error) :=
  match sched with
  | [] => None
  | i :: sched' =>
      match tasks s !! i with
      | Some (Running (Ret o)) => Some (i, o)
      | _ => first_to_terminate env sched' (default s (step env i s))
      end
  end.

(** No task has returned yet. *)
Definition all_running (s : Running_Group) : Prop :=
  forall j t, tasks s !! j = Some t -> is_Returned t = false.

(** As soon as some task has returned, the slot is full. *)
Definition slot_filled (s : Running_Group) : Prop :=
  forall j o, tasks s !! j = Some (Returned o) -> is_Some (result s).

End TaskGroup.
End workgroup.

(** ** Package [servicegroup] *)

Section servicegroup.

Context {Handler_t : Type}.

(** [String()] of an [os.Signal], as [%s] prints it; the table belongs to
    the Go runtime. *)
Variable Signal_String : Signal -> string.

(** [Group] is a [workgroup.Group] with the configuration of the servers. *)
Record Group : Type := {
  workgroup_Group : workgroup.Group;
  Handler : option Handler_t;
  DebugServerAddr : string;
  ServiceServerAddr : string;
  ShutdownTimeout : Duration;
  ServiceReadHeaderTimeout : Duration;
  ServiceWriteTimeout : Duration;
  ServiceIdleTimeout : Duration;
}.

Definition NewGroup (handler : option Handler_t) : Group :=
  {| workgroup_Group := {| workgroup.fn := [] |};
     Handler := handler;
     ShutdownTimeout := 30 * time_Second;
     ServiceReadHeaderTimeout := 30 * time_Second;
     ServiceWriteTimeout := 30 * time_Second;
     ServiceIdleTimeout := 30 * time_Second;
     DebugServerAddr := ":6060";
     ServiceServerAddr := ":8080" |}.

(** [g.Add(f)]: the method of the embedded group, on [g] itself. *)
Definition Add (g : Group) (f : Worker) : Group :=
  {| workgroup_Group := workgroup.Add (workgroup_Group g) f;
     Handler := Handler g;
     DebugServerAddr := DebugServerAddr g;
     ServiceServerAddr := ServiceServerAddr g;
     ShutdownTimeout := ShutdownTimeout g;
     ServiceReadHeaderTimeout := ServiceReadHeaderTimeout g;
     ServiceWriteTimeout := ServiceWriteTimeout g;
     ServiceIdleTimeout := ServiceIdleTimeout g |}.

(** [func (g *Group) shutdown(server *http.Server, name string) error].
    The deferred [cancel()] releases the context's timer and is not
    observable. *)
Definition shutdown (g : Group) (server : ptr) (name : string) : Prog error :=
  log_Printf ("Attempting graceful shutdown of " +:+ name +:+
              " on workgroup termination");;
  let ctx := context_WithTimeout (ShutdownTimeout g) in
  err ← call (Server_Shutdown server ctx);
  err ← match err with
        | Some _ =>
            log_Printf ("Error on graceful shutdown of " +:+ name +:+ ": " +:+
                        Error err);;
            log_Printf ("Attempting hard shutdown of " +:+ name);;
            err ← call (Server_Close server);
            match err with
            | Some _ =>
                mret (fmt_Errorf ("error while doing hard shutdown of " +:+
                                  name +:+ ": " +:+ Error err))
            | None =>
                mret (fmt_Errorf (name +:+
                                  " on workgroup hard shut down successful"))
            end
        | None =>
            mret (fmt_Errorf (name +:+
                              " on workgroup graceful shut down successful"))
        end;
  log_Print err;;
  mret err.

(** The five workers of [Run], in the order of the source.  Each closure
    reads [g]'s configuration and the server it captured. *)

(** listen on the debug port with the default mux *)
Definition debug_listener (g : Group) (debugServer : ptr) : Worker :=
  fun stop =>
    log_Printf ("Starting debug server on " +:+ DebugServerAddr g);;
    call (Server_ListenAndServe debugServer).

(** shut the debug server down on workgroup termination *)
Definition debug_closer (g : Group) (debugServer : ptr) : Worker :=
  fun stop =>
    call (chan_Recv stop);;
    shutdown g debugServer "debug HTTP server".

(** listen on the service port with the service's handler *)
Definition service_listener (g : Group) (serviceServer : ptr) : Worker :=
  fun stop =>
    log_Printf ("Starting service HTTP server on " +:+ ServiceServerAddr g);;
    call (Server_ListenAndServe serviceServer).

(** shut the service server down on workgroup termination *)
Definition service_closer (g : Group) (serviceServer : ptr) : Worker :=
  fun stop =>
    call (chan_Recv stop);;
    shutdown g serviceServer "service HTTP server".

(** watch for interrupt/term signals *)
Definition signal_watcher : Worker :=
  fun stop =>
    call (signal_Notify [SIGINT; SIGTERM]);;
    log_Printf "Watching for OS interrupt signals...";;
    sel ← call (select_Stop_Interrupt stop);
    match sel with
    | inl _ =>
        mret (fmt_Errorf "shutting down OS signal watcher on workgroup stop")
    | inr i =>
        log_Printf ("Received OS signal " +:+ Signal_String i +:+
                    "; beginning shutdown...");;
        mret (fmt_Errorf ("stopping on OS signal " +:+ Signal_String i))
    end.

(** [Run] up to the call of the embedded [Run]: the log line, the two
    servers, the five [Add]s.  Returns the group as [Add] left it, the two
    servers and the world. *)
Definition Run_register (g : Group) (w : World Handler_t)
  : Group * (ptr * ptr) * World Handler_t :=
  let w := record (EvLog "Service starting") w in
  let '(debugServer, w) :=
    new_Server {| srv_Addr := DebugServerAddr g;
                  srv_Handler := None;
                  srv_ReadHeaderTimeout := 30 * time_Second;
                  srv_WriteTimeout := 300 * time_Second;
                  srv_IdleTimeout := 30 * time_Second |} w in
  let '(serviceServer, w) :=
    new_Server {| srv_Addr := ServiceServerAddr g;
                  srv_Handler := Handler g;
                  srv_ReadHeaderTimeout := ServiceReadHeaderTimeout g;
                  srv_WriteTimeout := ServiceWriteTimeout g;
                  srv_IdleTimeout := ServiceIdleTimeout g |} w in
  let g := Add g (debug_listener g debugServer) in
  let g := Add g (debug_closer g debugServer) in
  let g := Add g (service_listener g serviceServer) in
  let g := Add g (service_closer g serviceServer) in
  let g := Add g signal_watcher in
  (g, (debugServer, serviceServer), w).

(** [func (g *Group) Run() error], under a given interleaving of the
    workers: [return g.Group.Run()]. *)
Definition Run (env : Env) (sched : list nat) (g : Group) (w : World Handler_t)
  : option error * World Handler_t :=
  let '(g, _, w) := Run_register g w in
  workgroup.Run env sched (workgroup_Group g) w.

End servicegroup.

(** ** Observations on a run *)

(** The history that a run added to the world it started from. *)
Definition new_events {Handler_t : Type} (w w' : World Handler_t)
  : list Event :=
  drop (length (trace w)) (trace w').

Definition is_log (ev : Event) : bool :=
  match ev with
  | EvLog _ => true
  | _ => false
  end.

(** The history without its log lines: calls on servers, subscriptions
    and signals received. *)
Definition external_calls (tr : list Event) : list Event :=
  List.filter (fun ev => negb (is_log ev)) tr.

(** The log lines of a history. *)
Definition log_lines (tr : list Event) : list string :=
  omap (fun ev => match ev with EvLog msg => Some msg | _ => None end) tr.

(** A program that stands blocked in the call [c]. *)
Definition blocked_in {A X : Type} (c : Call X) (o : Outcome A) : Prop :=
  exists k, o = Blocked (Vis c k).

(** A worker that sits in [ListenAndServe] on [server]: it writes one log
    line and makes that one call, whatever the stop channel says; it is
    blocked while the server serves and returns what the call returns. *)
Definition listens_on {Handler_t : Type} (env : Env) (f : Worker)
    (server : ptr) (line : string) : Prop :=
  forall (stop : chan) (w : World Handler_t),
    let res := exec env (f stop) w in
    match listen_ret env (trace w ++ [EvLog line]) server with
    | None =>
        blocked_in (Server_ListenAndServe server) (fst res) /\
        new_events w (snd res) = [EvLog line]
    | Some ret =>
        fst res = Done ret /\
        new_events w (snd res) = [EvLog line; EvListenAndServe server ret]
    end.

(** A worker that waits for the stop channel and then does what [p] does:
    blocked in the receive, nothing done, while the channel is open; from
    then on it is [p]. *)
Definition on_stop_runs {Handler_t : Type} (env : Env) (f : Worker)
    (p : Prog error) : Prop :=
  forall (stop : chan) (w : World Handler_t),
    if is_closed stop w
    then exec env (f stop) w = exec env p w
    else blocked_in (chan_Recv stop) (fst (exec env (f stop) w)) /\
         snd (exec env (f stop) w) = w.

(** ** What a program can do, whatever the world answers *)

(** Every call the program can ever make satisfies [P]. *)
Fixpoint all_calls (P : forall X : Type, Call X -> Prop) {A : Type}
    (p : Prog A) : Prop :=
  match p with
  | Ret _ => True
  | Vis c k => P _ c /\ forall x, all_calls P (k x)
  end.

(** Every value the program can ever return satisfies [P]. *)
Fixpoint all_rets {A : Type} (P : A -> Prop) (p : Prog A) : Prop :=
  match p with
  | Ret a => P a
  | Vis c k => forall x, all_rets P (k x)
  end.

(** The program stands at [<-stop]. *)
Definition waits_for (stop : chan) {A : Type} (p : Prog A) : Prop :=
  match p with
  | Ret _ => False
  | Vis c _ =>
      match c with
      | chan_Recv c' => c' = stop
      | _ => False
      end
  end.

(** A call that stops no server. *)
Definition no_stop_call (X : Type) (c : Call X) : Prop :=
  match c with
  | Server_Shutdown _ _ | Server_Close _ => False
  | _ => True
  end.

(** A call that cannot block once the channel [stop] is closed: anything
    but [ListenAndServe] and waiting on another channel. *)
Definition unblocked_by (stop : chan) (X : Type) (c : Call X) : Prop :=
  match c with
  | chan_Recv c' | select_Stop_Interrupt c' => c' = stop
  | Server_ListenAndServe _ => False
  | _ => True
  end.

(** A call that, if it is on a server, is on one of [servers], and whose
    graceful deadline, if it has one, is [T]. *)
Definition call_within (servers : list ptr) (T : Duration) (X : Type)
    (c : Call X) : Prop :=
  match c with
  | Server_ListenAndServe s | Server_Close s => s ∈ servers
  | Server_Shutdown s ctx => s ∈ servers /\ ctx_timeout ctx = T
  | _ => True
  end.

(** The same for what the history shows. *)
Definition event_within (servers : list ptr) (T : Duration) (ev : Event)
  : Prop :=
  match ev with
  | EvListenAndServe s _ | EvClose s _ => s ∈ servers
  | EvShutdown s deadline _ => s ∈ servers /\ deadline = T
  | _ => True
  end.

Definition is_stop_event (ev : Event) : bool :=
  match ev with
  | EvShutdown _ _ _ | EvClose _ _ => true
  | _ => false
  end.

(** The event that a call leaves in the history. *)
Definition call_event {X : Type} (c : Call X) (ev : Event) : Prop :=
  match c, ev with
  | Log msg, EvLog msg' => msg = msg'
  | Server_ListenAndServe s, EvListenAndServe s' _ => s = s'
  | Server_Shutdown s ctx, EvShutdown s' deadline _ =>
      s = s' /\ deadline = ctx_timeout ctx
  | Server_Close s, EvClose s' _ => s = s'
  | signal_Notify sigs, EvNotify sigs' => sigs = sigs'
  | select_Stop_Interrupt _, EvSignal _ => True
  | _, _ => False
  end.

(** A property of programs that passes to what is left after a call. *)
Definition passes_on (R : Prog error -> Prop) : Prop :=
  forall (X : Type) (c : Call X) k x, R (Vis c k) -> R (k x).

(** Thread [j] of a run has [R]: what is left of it if it runs, the value
    it returned if it has returned. *)
Definition thread_has {Handler_t : Type} (R : Prog error -> Prop)
    (s : @workgroup.Running_Group Handler_t) (j : nat) : Prop :=
  match workgroup.tasks s !! j with
  | Some (workgroup.Running p) => R p
  | Some (workgroup.Returned o) => R (Ret o)
  | None => True
  end.

(** The event tells that [server] was told to stop. *)
Definition stops_server (server : ptr) (ev : Event) : bool :=
  match ev with
  | EvShutdown s _ _ | EvClose s _ => bool_decide (s = server)
  | _ => false
  end.

(** The history shows that [server] was told to stop. *)
Definition stopped (server : ptr) (tr : list Event) : Prop :=
  exists ev, ev ∈ tr /\ stops_server server ev = true.

(** On every path to its return, the program tells [server] to stop. *)
Fixpoint must_stop (server : ptr) {A : Type} (p : Prog A) : Prop :=
  match p with
  | Ret _ => False
  | Vis c k =>
      match c with
      | Server_Shutdown s _ | Server_Close s => s = server
      | _ => False
      end \/ forall x, must_stop server (k x)
  end.

(** A call of a worker that only logs and listens on [server]. *)
Definition listens_only (server : ptr) (X : Type) (c : Call X) : Prop :=
  match c with
  | Log _ => True
  | Server_ListenAndServe s => s = server
  | _ => False
  end.

(** A property of the world that no call and no closing of a channel
    undoes. *)
Definition stable {Handler_t : Type} (env : Env)
    (I : World Handler_t -> Prop) : Prop :=
  (forall (X : Type) (c : Call X) w x w',
     I w -> handle env c w = Some (x, w') -> I w') /\
  (forall c w, I w -> I (close_chan c w)).

(** Thread [j] has told [server] to stop, or cannot return without doing
    so. *)
Definition thread_stops {Handler_t : Type} (server : ptr)
    (s : @workgroup.Running_Group Handler_t) (j : nat) : Prop :=
  match workgroup.tasks s !! j with
  | Some (workgroup.Running p) =>
      stopped server (trace (workgroup.world s)) \/ must_stop server p
  | Some (workgroup.Returned _) => stopped server (trace (workgroup.world s))
  | None => True
  end.

(** ** The example server ([cmd/servicegroup-example-server]) *)

Module example_server.
Section example_server.

Context {Handler_t : Type}.
Variable Signal_String : Signal -> string.

Definition time_Millisecond : Duration := 1000000.

(** Go's [int] and [int64] arithmetic wraps around. *)
Definition wrap_int64 (z : Z) : Z := (z + 2 ^ 63) mod 2 ^ 64 - 2 ^ 63.

(** [work]: how long the handler sleeps, given what [rand.Intn(5000)]
    returned. *)
Definition work_sleepTimeMillis (intn : Z) : Z := wrap_int64 (intn + 5000).

Definition work_sleep (intn : Z) : Duration :=
  wrap_int64 (work_sleepTimeMillis intn * time_Millisecond).

(** [main] up to [group.Run()]: the group it configures. *)
Definition main_group (mux : Handler_t) : Group :=
  let group := NewGroup (Some mux) in
  {| workgroup_Group := workgroup_Group group;
     Handler := Handler group;
     DebugServerAddr := DebugServerAddr group;
     ServiceServerAddr := ServiceServerAddr group;
     ShutdownTimeout := 10 * time_Second;
     ServiceReadHeaderTimeout := ServiceReadHeaderTimeout group;
     ServiceWriteTimeout := ServiceWriteTimeout group;
     ServiceIdleTimeout := ServiceIdleTimeout group |}.

(** [%s] of an error value in [log.Printf]. *)
Definition fmt_s (e : error) : string :=
  match e with
  | Some msg => msg
  | None => "%!s(<nil>)"
  end.

(** [main], under a given interleaving of the workers: the world when the
    schedule is used up, with the last log line if [Run] has returned. *)
Definition main (env : Env) (sched : list nat) (mux : Handler_t)
    (w : World Handler_t) : World Handler_t :=
  let group := main_group mux in
  match Run Signal_String env sched group w with
  | (Some err, w) =>
      record (EvLog ("Servicegroup terminated due to initial worker " +:+
                     "termination: " +:+ fmt_s err)) w
  | (None, w) => w
  end.

End example_server.
End example_server.

(** ** Sample environments

    Concrete outside worlds on which the definitions can be evaluated. *)

Module Samples.

Definition is_stop_of (server : ptr) (ev : Event) : bool :=
  match ev with
  | EvShutdown s _ _ | EvClose s _ => bool_decide (s = server)
  | _ => false
  end.

Definition is_signal (ev : Event) : bool :=
  match ev with
  | EvSignal _ => true
  | _ => false
  end.

(** [ListenAndServe] returns [http.ErrServerClosed] once the server has
    been shut down or closed, and serves until then. *)
Definition listen_until_stopped (tr : list Event) (server : ptr)
  : option error :=
  if existsb (is_stop_of server) tr then Some (Some "http: Server closed")
  else None.

(** The system signal names on Linux. *)
Definition Signal_String (sig : Signal) : string :=
  match sig with
  | SIGINT => "interrupt"
  | SIGTERM => "terminated"
  | SIGOTHER _ => "signal"
  end.

(** Servers that stop gracefully; one SIGINT arrives. *)
Definition env_sigint : Env :=
  {| listen_ret := listen_until_stopped;
     shutdown_ret := fun _ _ _ => None;
     close_ret := fun _ _ => None;
     pending_signal := fun tr => if existsb is_signal tr then None
                                 else Some SIGINT;
     select_stop_first := fun _ => false |}.

(** Servers whose graceful stop runs into the deadline and whose forced
    stop works; no signal ever arrives. *)
Definition env_slow : Env :=
  {| listen_ret := listen_until_stopped;
     shutdown_ret := fun _ _ _ => Some "context deadline exceeded";
     close_ret := fun _ _ => None;
     pending_signal := fun _ => None;
     select_stop_first := fun _ => true |}.

(** Servers that can be stopped neither way. *)
Definition env_stuck : Env :=
  {| listen_ret := listen_until_stopped;
     shutdown_ret := fun _ _ _ => Some "context deadline exceeded";
     close_ret := fun _ _ => Some "close tcp: use of closed network connection";
     pending_signal := fun _ => None;
     select_stop_first := fun _ => true |}.

(** A debug port that is already taken: [ListenAndServe] fails at once. *)
Definition env_port_taken : Env :=
  {| listen_ret := fun tr server =>
       if bool_decide (server = 0%nat)
       then Some (Some "listen tcp :6060: bind: address already in use")
       else listen_until_stopped tr server;
     shutdown_ret := fun _ _ _ => None;
     close_ret := fun _ _ => None;
     pending_signal := fun _ => None;
     select_stop_first := fun _ => true |}.

Definition w0 : World unit :=
  {| trace := []; heap := []; closed := []; subscribed := [] |}.

Definition g0 : Group := NewGroup (Some tt).

(** A world in which channel [7] has been closed. *)
Definition w_stopped : World unit :=
  {| trace := []; heap := []; closed := [7%nat]; subscribed := [] |}.

(** Round-robin over the five workers, often enough for all to finish. *)
Definition round_robin : list nat :=
  concat (replicate 12 [0; 1; 2; 3; 4]%nat).

(** The signal watcher first, then the others in turn. *)
Definition watcher_first : list nat :=
  replicate 5 4%nat ++ round_robin.


(** A debug server whose [ListenAndServe] returns nil at once. *)
Definition env_listen_nil : Env :=
  {| listen_ret := fun tr server =>
       if bool_decide (server = 0%nat) then Some None
       else listen_until_stopped tr server;
     shutdown_ret := fun _ _ _ => None;
     close_ret := fun _ _ => None;
     pending_signal := fun _ => None;
     select_stop_first := fun _ => true |}.

(** The group and the world as [Run] hands them to the embedded [Run]. *)
Definition g_registered : workgroup.Group :=
  workgroup_Group (fst (fst (Run_register Signal_String g0 w0))).

Definition w_registered : World unit :=
  snd (Run_register Signal_String g0 w0).

End Samples.

(** ** Properties of [shutdown] *)

(** Normalise the history of a world built by successive [record]s. *)
Ltac run_trace :=
  repeat progress (unfold record; cbn -[String.append];
                   rewrite <- ?app_assoc; cbn -[String.append]).

(** Membership in an explicit list, by cases. *)
Ltac by_cases_on_list H :=
  cbn -[String.append] in H;
  rewrite ?elem_of_cons, ?elem_of_nil in H;
  repeat match type of H with
         | _ \/ _ => destruct H as [H | H]
         end;
  first [ exact (False_ind _ H) | congruence ].

Section shutdown_properties.

Context {Handler_t : Type}.
Implicit Types (env : Env) (g : @Group Handler_t) (w : World Handler_t).
Implicit Types (server : ptr) (name : string).

(** Running a sequence runs its first part and then the rest. *)
Lemma exec_bind {A B : Type} env (p : Prog A) (f : A -> Prog B) w :
  exec env (bind p f) w =
  match exec env p w with
  | (Done a, w') => exec env (f a) w'
  | (Blocked p', w') => (Blocked (bind p' f), w')
  end.
Proof.
  revert w. induction p as [a | X c k IH]; intros w; simpl.
  - reflexivity.
  - destruct (handle env c w) as [[x w'] |]; [apply IH | reflexivity].
Qed.

Lemma new_events_app w (evs : list Event) h c s :
  new_events w {| trace := trace w ++ evs; heap := h;
                  closed := c; subscribed := s |} = evs.
Proof. unfold new_events; simpl. by rewrite drop_app_length. Qed.

(** What [shutdown] does, path by path. *)
Lemma exec_shutdown env g server name w :
  let attempt := EvLog ("Attempting graceful shutdown of " +:+ name +:+
                        " on workgroup termination") in
  let T := ShutdownTimeout g in
  let graceful := shutdown_ret env (trace w ++ [attempt]) server T in
  exec env (shutdown g server name) w =
  match graceful with
  | None =>
      let ok := name +:+ " on workgroup graceful shut down successful" in
      (Done (Some ok),
       {| trace := trace w ++ [attempt; EvShutdown server T None; EvLog ok];
          heap := heap w; closed := closed w; subscribed := subscribed w |})
  | Some e =>
      let pre := [attempt; EvShutdown server T (Some e);
                  EvLog ("Error on graceful shutdown of " +:+ name +:+ ": "
                         +:+ e);
                  EvLog ("Attempting hard shutdown of " +:+ name)] in
      let forced := close_ret env (trace w ++ pre) server in
      let final :=
        match forced with
        | Some e' => "error while doing hard shutdown of " +:+ name +:+ ": "
                     +:+ e'
        | None => name +:+ " on workgroup hard shut down successful"
        end in
      (Done (Some final),
       {| trace := trace w ++ pre ++ [EvClose server forced; EvLog final];
          heap := heap w; closed := closed w; subscribed := subscribed w |})
  end.
Proof.
  cbv zeta. unfold shutdown, log_Printf, log_Print, call, fmt_Errorf.
  cbn -[String.append]. run_trace.
  destruct (shutdown_ret env _ server (ShutdownTimeout g)) as [e |];
    run_trace; [| reflexivity].
  destruct (close_ret env _ server) as [e' |]; run_trace; reflexivity.
Qed.

(** C2. [shutdown] first calls the server's graceful stop with the group's
    [ShutdownTimeout] as deadline.  If that call returns an error, the next
    call is the forced stop on the same server, it is the only one (no
    retry, no second graceful attempt), the outcome is computed from what
    the forced stop returned, and both the graceful failure and that
    outcome are written to the log. *)
Theorem shutdown_escalates env g server name w :
  let out := fst (exec env (shutdown g server name) w) in
  let w' := snd (exec env (shutdown g server name) w) in
  let news := new_events w w' in
  let T := ShutdownTimeout g in
  exists graceful,
    trace w' = trace w ++ news /\
    graceful = shutdown_ret env (trace w ++ take 1 news) server T /\
    head (external_calls news) = Some (EvShutdown server T graceful) /\
    forall e, graceful = Some e ->
      exists forced,
        external_calls news =
          [EvShutdown server T (Some e); EvClose server forced] /\
        out = Done (match forced with
                    | Some e' =>
                        Some ("error while doing hard shutdown of " +:+ name
                              +:+ ": " +:+ e')
                    | None =>
                        Some (name +:+
                              " on workgroup hard shut down successful")
                    end) /\
        ("Error on graceful shutdown of " +:+ name +:+ ": " +:+ e)
          ∈ log_lines news /\
        (forall final,
           out = Done final -> last (log_lines news) = Some (Error final)).
Proof.
  cbv zeta. rewrite exec_shutdown. cbv zeta.
  destruct (shutdown_ret env _ server (ShutdownTimeout g)) as [e |] eqn:Hg;
    cbn [fst snd]; rewrite new_events_app; cbn -[String.append].
  - exists (Some e). rewrite Hg. do 3 (split; [reflexivity |]).
    intros e0 [= <-].
    destruct (close_ret env _ server) as [e' |]; eexists;
      (split; [reflexivity |]); (split; [reflexivity |]);
      (split; [rewrite !elem_of_cons; auto |]);
      intros final [= <-]; reflexivity.
  - exists None. rewrite Hg. repeat split. intros e [=].
Qed.

(** C3, as the code has it.  When the graceful stop returns no error,
    [shutdown] returns a non-nil error whose text reports the success. *)
Theorem shutdown_graceful_outcome env g server name w :
  let attempt := EvLog ("Attempting graceful shutdown of " +:+ name +:+
                        " on workgroup termination") in
  shutdown_ret env (trace w ++ [attempt]) server (ShutdownTimeout g) = None ->
  fst (exec env (shutdown g server name) w) =
  Done (Some (name +:+ " on workgroup graceful shut down successful")).
Proof.
  cbv zeta. intros Hg. rewrite exec_shutdown. cbv zeta. by rewrite Hg.
Qed.

(** C4. When the graceful stop returns no error, [shutdown] makes no other
    call: the forced stop is not invoked, on this server or on any other. *)
Theorem shutdown_graceful_no_close env g server name w :
  let attempt := EvLog ("Attempting graceful shutdown of " +:+ name +:+
                        " on workgroup termination") in
  let news := new_events w (snd (exec env (shutdown g server name) w)) in
  shutdown_ret env (trace w ++ [attempt]) server (ShutdownTimeout g) = None ->
  external_calls news = [EvShutdown server (ShutdownTimeout g) None] /\
  forall s ret, EvClose s ret ∉ news.
Proof.
  cbv zeta. intros Hg. rewrite exec_shutdown. cbv zeta. rewrite Hg.
  cbn [snd]. rewrite new_events_app. split; [reflexivity |].
  intros s ret Hin. by_cases_on_list Hin.
Qed.

(** C8. [shutdown] always returns, and never returns nil: whichever path
    it takes the result is a non-nil error, and on the two successful
    paths (graceful stop worked, forced stop worked) its text reports the
    success. *)
Theorem shutdown_never_nil env g server name w :
  let out := fst (exec env (shutdown g server name) w) in
  let news := new_events w (snd (exec env (shutdown g server name) w)) in
  let T := ShutdownTimeout g in
  exists msg,
    out = Done (Some msg) /\
    out <> Done None /\
    (EvShutdown server T None ∈ news ->
     msg = name +:+ " on workgroup graceful shut down successful") /\
    (EvClose server None ∈ news ->
     msg = name +:+ " on workgroup hard shut down successful").
Proof.
  cbv zeta. rewrite exec_shutdown. cbv zeta.
  destruct (shutdown_ret env _ server (ShutdownTimeout g)) as [e |] eqn:Hg.
  - destruct (close_ret env _ server) as [e' |] eqn:Hf;
      cbn [fst snd]; rewrite new_events_app; eexists;
      (split; [reflexivity |]); (split; [congruence |]);
      split; intros Hin; by_cases_on_list Hin.
  - cbn [fst snd]; rewrite new_events_app; eexists;
      (split; [reflexivity |]); (split; [congruence |]);
      split; intros Hin; by_cases_on_list Hin.
Qed.

End shutdown_properties.

(** ** Properties of the task group *)

Section workgroup_properties.

Import workgroup.

Context {Handler_t : Type}.
Implicit Types (env : Env) (s : @Running_Group Handler_t).
Implicit Types (sched : list nat) (r o : error).

Lemma run_app env sched1 sched2 s :
  run env (sched1 ++ sched2) s = run env sched2 (run env sched1 s).
Proof.
  revert s. induction sched1 as [| i sched1 IH]; intros s; simpl; auto.
Qed.

(** A step never changes the number of tasks. *)
Lemma step_length env i s s' :
  step env i s = Some s' -> length (tasks s') = length (tasks s).
Proof.
  unfold step. intros H.
  destruct (tasks s !! i) as [[[o | X c k] | o] |]; try discriminate.
  - injection H as <-. simpl. apply length_insert.
  - destruct (handle env c (world s)) as [[x w'] |]; [| discriminate].
    injection H as <-. simpl. apply length_insert.
Qed.

Lemma run_length env sched s :
  length (tasks (run env sched s)) = length (tasks s).
Proof.
  revert s. induction sched as [| i sched IH]; intros s; simpl; [done |].
  rewrite IH. destruct (step env i s) as [s' |] eqn:Hs; simpl; [| done].
  by apply step_length in Hs.
Qed.

(** The result slot is written at most once. *)
Lemma step_result_kept env i s s' r :
  step env i s = Some s' -> result s = Some r -> result s' = Some r.
Proof.
  unfold step. intros H Hr.
  destruct (tasks s !! i) as [[[o | X c k] | o] |]; try discriminate.
  - injection H as <-. simpl. by rewrite Hr.
  - destruct (handle env c (world s)) as [[x w'] |]; [| discriminate].
    by injection H as <-.
Qed.

Lemma run_result_kept env sched s r :
  result s = Some r -> result (run env sched s) = Some r.
Proof.
  revert s. induction sched as [| i sched IH]; intros s Hr; simpl; [done |].
  apply IH. destruct (step env i s) as [s' |] eqn:Hs; simpl; [| done].
  eapply step_result_kept; eauto.
Qed.

(** A task that has returned stays returned, with the same outcome. *)
Lemma step_Returned_kept env i s s' j o :
  step env i s = Some s' ->
  tasks s !! j = Some (Returned o) -> tasks s' !! j = Some (Returned o).
Proof.
  unfold step. intros H Hj.
  destruct (tasks s !! i) as [[[o' | X c k] | o'] |] eqn:Hi; try discriminate.
  - injection H as <-. simpl.
    rewrite list_lookup_insert_ne; [done | congruence].
  - destruct (handle env c (world s)) as [[x w'] |]; [| discriminate].
    injection H as <-. simpl.
    rewrite list_lookup_insert_ne; [done | congruence].
Qed.

Lemma run_Returned_kept env sched s j o :
  tasks s !! j = Some (Returned o) ->
  tasks (run env sched s) !! j = Some (Returned o).
Proof.
  revert s. induction sched as [| i sched IH]; intros s Hj; simpl; [done |].
  apply IH. destruct (step env i s) as [s' |] eqn:Hs; simpl; [| done].
  eapply step_Returned_kept; eauto.
Qed.

(** While the slot is empty no task has returned; the first task at its
    return fills it. *)
Lemma first_to_terminate_result env sched s :
  all_running s -> result s = None ->
  match first_to_terminate env sched s with
  | Some (i, o) =>
      result (run env sched s) = Some o /\
      tasks (run env sched s) !! i = Some (Returned o)
  | None =>
      result (run env sched s) = None /\ all_running (run env sched s)
  end.
Proof.
  revert s. induction sched as [| i sched IH]; intros s Hrun Hres; simpl.
  - done.
  - unfold step.
    destruct (tasks s !! i) as [[[o | X c k] | o] |] eqn:Hi; simpl.
    + split.
      * apply run_result_kept. simpl. by rewrite Hres.
      * apply run_Returned_kept. simpl.
        apply list_lookup_insert_eq. by eapply lookup_lt_Some.
    + destruct (handle env c (world s)) as [[x w'] |]; simpl.
      * apply IH; [| done]. intros j t. simpl.
        destruct (decide (i = j)) as [<- | Hne].
        -- rewrite list_lookup_insert_eq by (by eapply lookup_lt_Some).
           by intros [= <-].
        -- rewrite list_lookup_insert_ne by done. apply Hrun.
      * by apply IH.
    + by apply Hrun in Hi.
    + by apply IH.
Qed.

Lemma step_slot_filled env i s s' :
  step env i s = Some s' -> slot_filled s -> slot_filled s'.
Proof.
  unfold step, slot_filled. intros H Inv j o'.
  destruct (tasks s !! i) as [[[o | X c k] | o] |] eqn:Hi; try discriminate.
  - injection H as <-. simpl. intros _. destruct (result s); eauto.
  - destruct (handle env c (world s)) as [[x w'] |]; [| discriminate].
    injection H as <-. simpl.
    destruct (decide (i = j)) as [<- | Hne].
    + rewrite list_lookup_insert_eq by (by eapply lookup_lt_Some). done.
    + rewrite list_lookup_insert_ne by done. apply Inv.
Qed.

Lemma run_slot_filled env sched s :
  slot_filled s -> slot_filled (run env sched s).
Proof.
  revert s. induction sched as [| i sched IH]; intros s Inv; simpl; [done |].
  apply IH. destruct (step env i s) as [s' |] eqn:Hs; simpl; [| done].
  eapply step_slot_filled; eauto.
Qed.

Lemma make_chan_fresh (w : World Handler_t) : is_closed (make_chan w) w = false.
Proof.
  unfold is_closed, make_chan. apply bool_decide_eq_false.
  intros Hin. apply max_list_elem_of_le in Hin. lia.
Qed.

Lemma launch_all_running g (w : World Handler_t) : all_running (launch g w).
Proof.
  intros j t. unfold launch; simpl. rewrite list_lookup_fmap.
  intros Hj. by apply fmap_Some in Hj as (f & _ & ->).
Qed.

Lemma drained_spec s :
  drained s = true <->
  forall j t, tasks s !! j = Some t -> exists o, t = Returned o.
Proof.
  unfold drained. rewrite forallb_forall. split.
  - intros H j t Hj. apply list_elem_of_lookup_2, list_elem_of_In, H in Hj.
    destruct t; [done | eauto].
  - intros H t Hin. apply list_elem_of_In, list_elem_of_lookup in Hin as [j Hj].
    by destruct (H _ _ Hj) as [o ->].
Qed.

Lemma launch_slot_filled g (w : World Handler_t) : slot_filled (launch g w).
Proof.
  intros j o Hj. by apply launch_all_running in Hj.
Qed.

(** What a result of [Run] tells. *)
Lemma Run_Some_inv env g (w : World Handler_t) sched r :
  fst (Run env sched g w) = Some r ->
  drained (run env sched (launch g w)) = true /\
  exists i, first_to_terminate env sched (launch g w) = Some (i, r) /\
            tasks (run env sched (launch g w)) !! i = Some (Returned r).
Proof.
  unfold Run, Run_result. cbn [fst].
  destruct (drained _) eqn:Hd; [| discriminate]. intros Hr.
  split; [reflexivity |].
  pose proof (first_to_terminate_result env sched (launch g w)
                (launch_all_running g w) eq_refl) as H.
  destruct (first_to_terminate env sched (launch g w)) as [[i o] |].
  - destruct H as [Hres Hi]. rewrite Hres in Hr. injection Hr as ->. eauto.
  - destruct H as [Hres _]. congruence.
Qed.

(** A drained group with at least one task has a result for the caller. *)
Lemma Run_drained env g (w : World Handler_t) sched :
  fn g <> [] ->
  drained (run env sched (launch g w)) = true ->
  exists r, fst (Run env sched g w) = Some r.
Proof.
  intros Hne Hd. unfold Run, Run_result. cbn [fst]. rewrite Hd.
  destruct (tasks (run env sched (launch g w)) !! 0%nat) as [t |] eqn:Ht.
  - pose proof Hd as Hd'. rewrite drained_spec in Hd'.
    destruct (Hd' _ _ Ht) as [o ->].
    pose proof (run_slot_filled env sched _ (launch_slot_filled g w) _ _ Ht)
      as [r Hr].
    eauto.
  - apply lookup_ge_None in Ht. rewrite run_length in Ht.
    unfold launch in Ht; simpl in Ht. rewrite length_map in Ht.
    destruct (fn g); [done | simpl in Ht; lia].
Qed.

Lemma all_returned_drained env g (w : World Handler_t) sched :
  drained (run env sched (launch g w)) = true <->
  forall j, (j < length (fn g))%nat ->
            exists o, tasks (run env sched (launch g w)) !! j =
                      Some (Returned o).
Proof.
  rewrite drained_spec.
  assert (length (tasks (run env sched (launch g w))) = length (fn g)) as Hlen.
  { rewrite run_length. unfold launch; simpl. apply length_map. }
  split.
  - intros Hd j Hj.
    destruct (tasks (run env sched (launch g w)) !! j) as [t |] eqn:Ht.
    + destruct (Hd _ _ Ht) as [o ->]. eauto.
    + apply lookup_ge_None in Ht. rewrite Hlen in Ht.
      exfalso. exact (proj1 (Nat.lt_nge _ _) Hj Ht).
  - intros Hall j t Hj. destruct (Hall j) as [o Ho].
    + apply lookup_lt_Some in Hj. by rewrite Hlen in Hj.
    + rewrite Ho in Hj. injection Hj as <-. eauto.
Qed.

(** The first return raises the Stop Signal, and it stays raised. *)
Lemma handle_closed env {X : Type} (c : Call X) (w w' : World Handler_t) x :
  handle env c w = Some (x, w') -> closed w' = closed w.
Proof.
  destruct c; simpl; intros H; repeat case_match; by simplify_eq.
Qed.

Lemma step_stop_kept env i s s' :
  step env i s = Some s' ->
  stop s' = stop s /\
  (is_closed (stop s) (world s) = true ->
   is_closed (stop s') (world s') = true).
Proof.
  unfold step. intros H.
  destruct (tasks s !! i) as [[[o | X c k] | o] |]; try discriminate.
  - injection H as <-. simpl. split; [done |].
    intros Hc. unfold close_chan. by rewrite Hc.
  - destruct (handle env c (world s)) as [[x w'] |] eqn:Hh; [| discriminate].
    injection H as <-. simpl. split; [done |].
    unfold is_closed. by rewrite (handle_closed _ _ _ _ _ Hh).
Qed.

Lemma run_stop_kept env sched s :
  is_closed (stop s) (world s) = true ->
  is_closed (stop (run env sched s)) (world (run env sched s)) = true.
Proof.
  revert s. induction sched as [| i sched IH]; intros s Hc; simpl; [done |].
  apply IH. destruct (step env i s) as [s' |] eqn:Hs; simpl; [| done].
  destruct (step_stop_kept _ _ _ _ Hs) as [_ H]. auto.
Qed.

Lemma first_return_raises_stop env sched s i o :
  first_to_terminate env sched s = Some (i, o) ->
  is_closed (stop (run env sched s)) (world (run env sched s)) = true.
Proof.
  revert s. induction sched as [| j sched IH]; intros s; simpl; [done |].
  unfold step.
  destruct (tasks s !! j) as [[[o' | X c k] | o'] |] eqn:Hj; simpl.
  - intros _. apply run_stop_kept. simpl.
    unfold close_chan. destruct (is_closed (stop s) (world s)) eqn:Hc;
      [done |].
    unfold is_closed; simpl. apply bool_decide_eq_true. left.
  - destruct (handle env c (world s)) as [[x w'] |]; simpl; apply IH.
  - apply IH.
  - apply IH.
Qed.

(** C1. [Run] starts every registered task as a thread of its own, each
    with the same, not yet raised, stop channel.  Under every interleaving,
    the caller gets a result only when every task has returned, and that
    result is the value that the first task to reach its return returned,
    unchanged; once every task of a non-empty group has returned, the
    caller does get a result. *)
Theorem Run_returns_first_outcome env g (w : World Handler_t) sched :
  let s0 := launch g w in
  let s := run env sched s0 in
  let all_returned :=
    forall j, (j < length (fn g))%nat ->
              exists o, tasks s !! j = Some (Returned o) in
  (tasks s0 = map (fun f => Running (f (stop s0))) (fn g) /\
   is_closed (stop s0) (world s0) = false /\
   result s0 = None) /\
  (forall r, fst (Run env sched g w) = Some r ->
     all_returned /\
     exists i, first_to_terminate env sched s0 = Some (i, r) /\
               tasks s !! i = Some (Returned r)) /\
  (fn g <> [] -> all_returned -> exists r, fst (Run env sched g w) = Some r).
Proof.
  cbv zeta. split; [| split].
  - split; [reflexivity |]. split; [apply make_chan_fresh | reflexivity].
  - intros r Hr. apply Run_Some_inv in Hr as [Hd Hfirst].
    split; [by apply all_returned_drained | done].
  - intros Hne Hall. apply Run_drained; [done |].
    by apply all_returned_drained.
Qed.

(** C5. Once the first task to terminate has put its outcome into the
    result slot, the slot keeps that value however the run goes on: no
    later termination, failed or successful, changes it, and it is what
    [Run] returns when the group has drained. *)
Theorem result_slot_write_once env g (w : World Handler_t) pre post i o :
  first_to_terminate env pre (launch g w) = Some (i, o) ->
  let s := run env pre (launch g w) in
  let s' := run env (pre ++ post) (launch g w) in
  result s = Some o /\
  result s' = Some o /\
  (drained s' = true -> fst (Run env (pre ++ post) g w) = Some o).
Proof.
  intros Hfirst. cbv zeta.
  pose proof (first_to_terminate_result env pre (launch g w)
                (launch_all_running g w) eq_refl) as H.
  rewrite Hfirst in H. destruct H as [Hres _].
  assert (result (run env (pre ++ post) (launch g w)) = Some o) as Hres'.
  { rewrite run_app. by apply run_result_kept. }
  repeat split; [done | done |].
  intros Hd. unfold Run, Run_result. cbn [fst]. by rewrite Hd.
Qed.

End workgroup_properties.

(** ** Properties of [NewGroup] and [Run] *)

Section Run_properties.

Context {Handler_t : Type}.
Variable Signal_String : Signal -> string.
Implicit Types (env : Env) (g : @Group Handler_t) (w : World Handler_t).

Local Abbreviation register := (Run_register Signal_String).
Local Abbreviation watcher := (signal_watcher Signal_String).

(** What the set-up part of [Run] leaves behind. *)
Lemma Run_register_eq g w :
  let debugServer := length (heap w) in
  let serviceServer := S (length (heap w)) in
  workgroup.fn (workgroup_Group (fst (fst (register g w)))) =
    workgroup.fn (workgroup_Group g) ++
      [debug_listener g debugServer; debug_closer g debugServer;
       service_listener g serviceServer; service_closer g serviceServer;
       watcher] /\
  snd (fst (register g w)) = (debugServer, serviceServer) /\
  snd (register g w) =
    {| trace := trace w ++ [EvLog "Service starting"];
       heap := heap w ++
         [{| srv_Addr := DebugServerAddr g;
             srv_Handler := None;
             srv_ReadHeaderTimeout := 30 * time_Second;
             srv_WriteTimeout := 300 * time_Second;
             srv_IdleTimeout := 30 * time_Second |};
          {| srv_Addr := ServiceServerAddr g;
             srv_Handler := Handler g;
             srv_ReadHeaderTimeout := ServiceReadHeaderTimeout g;
             srv_WriteTimeout := ServiceWriteTimeout g;
             srv_IdleTimeout := ServiceIdleTimeout g |}];
       closed := closed w;
       subscribed := subscribed w |}.
Proof.
  cbv zeta. unfold Run_register, new_Server, record, Add, workgroup.Add.
  cbn -[Z.mul]. rewrite length_app, Nat.add_1_r, <- !app_assoc.
  repeat split.
Qed.

(** [Run] hands its caller the embedded group's result: the value of the
    first worker to return, once all workers have returned. *)
Lemma Run_result_is_first_worker env sched g w r :
  fst (Run Signal_String env sched g w) = Some r ->
  let g' := workgroup_Group (fst (fst (register g w))) in
  let s := workgroup.run env sched (workgroup.launch g' (snd (register g w))) in
  workgroup.drained s = true /\
  exists i,
    workgroup.first_to_terminate env sched
      (workgroup.launch g' (snd (register g w))) = Some (i, r) /\
    workgroup.tasks s !! i = Some (workgroup.Returned r).
Proof.
  unfold Run. destruct (register g w) as [[g1 servers] w1]. cbn [fst snd].
  apply Run_Some_inv.
Qed.

(** The two kinds of worker, run alone. *)
Lemma listener_listens env (f : Worker) server line :
  (forall stop, f stop = (log_Printf line;;
                          call (Server_ListenAndServe server))) ->
  listens_on (Handler_t := Handler_t) env f server line.
Proof.
  intros Hf stop w. cbv zeta. rewrite Hf.
  unfold log_Printf, call. cbn -[String.append].
  destruct (listen_ret env (trace w ++ [EvLog line]) server) as [ret |];
    cbn [fst snd]; run_trace.
  - by rewrite new_events_app.
  - split; [by eexists |]. unfold new_events; simpl.
    by rewrite drop_app_length.
Qed.

Lemma closer_on_stop env (f : Worker) (p : Prog error) :
  (forall stop, f stop = (call (chan_Recv stop);; p)) ->
  on_stop_runs (Handler_t := Handler_t) env f p.
Proof.
  intros Hf stop w. rewrite Hf. unfold call. cbn -[String.append].
  destruct (is_closed stop w) eqn:Hc.
  - clear Hc. destruct p; reflexivity.
  - split; [by eexists | reflexivity].
Qed.

(** C9. [NewGroup h] has the handler [h], the four timeouts at 30 seconds
    (30 000 000 000 ns), the debug address ":6060", the service address
    ":8080", and an embedded group with no worker registered: launching it
    starts no thread.  The servers come into being in [Run] only. *)
Theorem NewGroup_defaults (h : option Handler_t) w :
  let g := NewGroup h in
  Handler g = h /\
  ShutdownTimeout g = 30 * time_Second /\
  ServiceReadHeaderTimeout g = 30 * time_Second /\
  ServiceWriteTimeout g = 30 * time_Second /\
  ServiceIdleTimeout g = 30 * time_Second /\
  30 * time_Second = 30000000000 /\
  DebugServerAddr g = ":6060" /\
  ServiceServerAddr g = ":8080" /\
  workgroup.fn (workgroup_Group g) = [] /\
  workgroup.tasks (workgroup.launch (workgroup_Group g) w) = [] /\
  length (heap (snd (register g w))) = (length (heap w) + 2)%nat.
Proof.
  cbv zeta. do 10 (split; [reflexivity |]).
  destruct (Run_register_eq (NewGroup h) w) as (_ & _ & ->).
  simpl. by rewrite length_app.
Qed.

(** C10. [Run] registers exactly five workers, after those registered
    before and in this order: debug listener, debug closer, service
    listener, service closer, signal watcher; it registers them without
    running anything, and then returns what the embedded group's [Run]
    returns on the group so extended. *)
Theorem Run_registers_five_workers env sched g w :
  let g' := fst (fst (register g w)) in
  let debugServer := fst (snd (fst (register g w))) in
  let serviceServer := snd (snd (fst (register g w))) in
  let w' := snd (register g w) in
  workgroup.fn (workgroup_Group g') =
    workgroup.fn (workgroup_Group g) ++
      [debug_listener g debugServer; debug_closer g debugServer;
       service_listener g serviceServer; service_closer g serviceServer;
       watcher] /\
  length (workgroup.fn (workgroup_Group g')) =
    (length (workgroup.fn (workgroup_Group g)) + 5)%nat /\
  new_events w w' = [EvLog "Service starting"] /\
  closed w' = closed w /\
  Run Signal_String env sched g w =
    workgroup.Run env sched (workgroup_Group g') w'.
Proof.
  cbv zeta. destruct (Run_register_eq g w) as (Hfn & Hsrv & Hw).
  rewrite Hfn, Hsrv, Hw. cbn [fst snd].
  split; [reflexivity |]. split; [by rewrite length_app |].
  split; [apply new_events_app |]. split; [reflexivity |].
  unfold Run. rewrite <- Hw.
  destruct (register g w) as [[g1 servers] w1]. reflexivity.
Qed.

(** C6. [Run] creates two distinct servers and registers, for each, a
    listener that sits in [ListenAndServe] on it without ever looking at
    the stop channel, directly followed by a closer that blocks until the
    stop channel is closed and then runs [shutdown] on that same server,
    whose first call is the graceful stop of that server. *)
Theorem Run_pairs_listener_with_closer env g w :
  let n := length (workgroup.fn (workgroup_Group g)) in
  let g' := fst (fst (register g w)) in
  let debugServer := fst (snd (fst (register g w))) in
  let serviceServer := snd (snd (fst (register g w))) in
  let registered i := workgroup.fn (workgroup_Group g') !! (n + i)%nat in
  debugServer <> serviceServer /\
  (exists listener closer,
     registered 0%nat = Some listener /\ registered 1%nat = Some closer /\
     listens_on (Handler_t := Handler_t) env listener debugServer
       ("Starting debug server on " +:+ DebugServerAddr g) /\
     on_stop_runs (Handler_t := Handler_t) env closer
       (shutdown g debugServer "debug HTTP server")) /\
  (exists listener closer,
     registered 2%nat = Some listener /\ registered 3%nat = Some closer /\
     listens_on (Handler_t := Handler_t) env listener serviceServer
       ("Starting service HTTP server on " +:+ ServiceServerAddr g) /\
     on_stop_runs (Handler_t := Handler_t) env closer
       (shutdown g serviceServer "service HTTP server")) /\
  (forall server name (wx : World Handler_t),
     exists ret,
       head (external_calls
               (new_events wx (snd (exec env (shutdown g server name) wx)))) =
       Some (EvShutdown server (ShutdownTimeout g) ret)).
Proof.
  cbv zeta. destruct (Run_register_eq g w) as (Hfn & Hsrv & _).
  rewrite Hfn, Hsrv. cbn [fst snd].
  split; [lia |]. split; [| split].
  - exists (debug_listener g (length (heap w))),
           (debug_closer g (length (heap w))).
    split; [by rewrite lookup_app_r, Nat.add_0_r by lia;
            rewrite Nat.sub_diag |].
    split; [by rewrite lookup_app_r by lia;
            replace (_ + 1 - _)%nat with 1%nat by lia |].
    split; [by apply listener_listens | by apply closer_on_stop].
  - exists (service_listener g (S (length (heap w)))),
           (service_closer g (S (length (heap w)))).
    split; [by rewrite lookup_app_r by lia;
            replace (_ + 2 - _)%nat with 2%nat by lia |].
    split; [by rewrite lookup_app_r by lia;
            replace (_ + 3 - _)%nat with 3%nat by lia |].
    split; [by apply listener_listens | by apply closer_on_stop].
  - intros server name wx. rewrite exec_shutdown. cbv zeta.
    destruct (shutdown_ret env _ server (ShutdownTimeout g)) as [e |];
      cbn [snd]; rewrite new_events_app; eexists; reflexivity.
Qed.

(** C7. The fifth worker that [Run] registers is the signal watcher.  It
    subscribes to SIGINT and SIGTERM and then waits for the stop channel or
    a signal.  Whenever it returns, it returns a non-nil error: when
    SIGINT or SIGTERM arrives (and the select takes that case), the error
    "stopping on OS signal" followed by the name of the signal received,
    from which that name can be read back; when it sees the stop channel
    closed instead, the error "shutting down OS signal watcher on
    workgroup stop". *)
Theorem signal_watcher_returns_error env g w (stop : chan)
    (wx : World Handler_t) :
  let n := length (workgroup.fn (workgroup_Group g)) in
  let g' := fst (fst (register g w)) in
  let out := fst (exec env (watcher stop) wx) in
  let tr := trace wx ++ [EvNotify [SIGINT; SIGTERM];
                         EvLog "Watching for OS interrupt signals..."] in
  workgroup.fn (workgroup_Group g') !! (n + 4)%nat = Some watcher /\
  (forall e, out = Done e -> e <> None) /\
  (forall sig,
     sig = SIGINT \/ sig = SIGTERM ->
     pending_signal env tr = Some sig ->
     is_closed stop wx = false \/ select_stop_first env tr = false ->
     out = Done (Some ("stopping on OS signal " +:+ Signal_String sig))) /\
  (is_closed stop wx = true ->
   pending_signal env tr = None \/ select_stop_first env tr = true ->
   out = Done (Some "shutting down OS signal watcher on workgroup stop")) /\
  (forall sig sig',
     "stopping on OS signal " +:+ Signal_String sig =
     "stopping on OS signal " +:+ Signal_String sig' ->
     Signal_String sig = Signal_String sig').
Proof.
  cbv zeta. destruct (Run_register_eq g w) as (Hfn & _ & _). rewrite Hfn.
  split.
  { rewrite lookup_app_r by lia.
    by replace (_ + 4 - _)%nat with 4%nat by lia. }
  unfold signal_watcher, log_Printf, call, fmt_Errorf.
  cbn -[String.append]. unfold interrupt_ready, is_closed, record.
  cbn -[String.append]. rewrite <- !app_assoc. cbn -[String.append].
  set (tr := trace wx ++ _). set (stopped := bool_decide (stop ∈ closed wx)).
  split; [| split; [| split]].
  - intros e.
    destruct stopped, (pending_signal env tr) as [sig |];
      try destruct (bool_decide _); try destruct (select_stop_first env tr);
      cbn -[String.append]; intros [= <-]; discriminate.
  - intros sig Hsig Hpend Hsel. rewrite Hpend.
    rewrite bool_decide_eq_true_2
      by (rewrite !elem_of_cons; destruct Hsig; auto).
    destruct Hsel as [-> | Hsel]; [reflexivity |].
    rewrite Hsel. by destruct stopped.
  - intros -> [-> | Hsel]; [reflexivity |].
    rewrite Hsel.
    by destruct (pending_signal env tr) as [sig |];
      try destruct (bool_decide _).
  - intros sig sig' Heq. cbn in Heq. by simplify_eq.
Qed.

End Run_properties.

(** ** The properties on the sample environments *)

Section Evaluation.

Import Samples.

(** Ctrl-C: the watcher returns first, both servers stop gracefully, and
    [Run] returns the watcher's error. *)
Example Run_on_sigint :
  fst (Run Signal_String env_sigint watcher_first g0 w0) =
  Some (Some "stopping on OS signal interrupt").
Proof. vm_compute. reflexivity. Qed.

(** The debug port is taken: the debug listener returns first. *)
Example Run_on_port_taken :
  fst (Run Signal_String env_port_taken round_robin g0 w0) =
  Some (Some "listen tcp :6060: bind: address already in use").
Proof. vm_compute. reflexivity. Qed.

(** Nothing happens: every worker is blocked, and so is the caller. *)
Example Run_blocks_while_serving :
  fst (Run Signal_String env_slow round_robin g0 w0) = None.
Proof. vm_compute. reflexivity. Qed.

(** The graceful stop runs into its deadline: one forced stop follows,
    and its success is what [shutdown] reports. *)
Example shutdown_on_slow_server :
  let res := exec env_slow (shutdown g0 0%nat "debug HTTP server") w0 in
  fst res =
    Done (Some "debug HTTP server on workgroup hard shut down successful") /\
  external_calls (trace (snd res)) =
    [EvShutdown 0%nat 30000000000 (Some "context deadline exceeded");
     EvClose 0%nat None].
Proof. vm_compute. split; reflexivity. Qed.

(** Neither stop works: the error of the forced stop is reported. *)
Example shutdown_on_stuck_server :
  fst (exec env_stuck (shutdown g0 0%nat "debug HTTP server") w0) =
  Done (Some ("error while doing hard shutdown of debug HTTP server: " +:+
              "close tcp: use of closed network connection")).
Proof. vm_compute. reflexivity. Qed.

(** The closer does nothing while channel 7 is open, and shuts the server
    down once it is closed. *)
Example debug_closer_waits_for_stop :
  snd (exec env_sigint (debug_closer g0 0%nat 7%nat) w0) = w0 /\
  fst (exec env_sigint (debug_closer g0 0%nat 7%nat) w_stopped) =
  Done (Some "debug HTTP server on workgroup graceful shut down successful").
Proof. vm_compute. split; reflexivity. Qed.

(** C3 as the specification states it fails: the graceful stop of the
    debug server returns no error, and [shutdown] returns a non-nil
    error. *)
Lemma shutdown_graceful_outcome_counterexample :
  shutdown_ret env_sigint
    (trace w0 ++ [EvLog ("Attempting graceful shutdown of " +:+
                         "debug HTTP server" +:+
                         " on workgroup termination")])
    0%nat (ShutdownTimeout g0) = None /\
  fst (exec env_sigint (shutdown g0 0%nat "debug HTTP server") w0) =
    Done (Some "debug HTTP server on workgroup graceful shut down successful")
  /\
  fst (exec env_sigint (shutdown g0 0%nat "debug HTTP server") w0) <>
    Done None.
Proof.
  split; [reflexivity |]. split; [vm_compute; reflexivity |].
  vm_compute. discriminate.
Qed.

Lemma shutdown_graceful_outcome_witness :
  shutdown_ret env_sigint
    (trace w0 ++ [EvLog ("Attempting graceful shutdown of " +:+
                         "service HTTP server" +:+
                         " on workgroup termination")])
    1%nat (ShutdownTimeout g0) = None /\
  fst (exec env_sigint (shutdown g0 1%nat "service HTTP server") w0) =
    Done (Some ("service HTTP server" +:+
                " on workgroup graceful shut down successful")).
Proof.
  split; [reflexivity |].
  apply (shutdown_graceful_outcome env_sigint g0 1%nat
           "service HTTP server" w0).
  reflexivity.
Defined.

Lemma shutdown_graceful_no_close_witness :
  external_calls
    (new_events w0
       (snd (exec env_sigint (shutdown g0 0%nat "debug HTTP server") w0))) =
    [EvShutdown 0%nat (ShutdownTimeout g0) None] /\
  forall s ret,
    EvClose s ret ∉
      new_events w0
        (snd (exec env_sigint (shutdown g0 0%nat "debug HTTP server") w0)).
Proof.
  apply (shutdown_graceful_no_close env_sigint g0 0%nat
           "debug HTTP server" w0).
  reflexivity.
Defined.

Lemma result_slot_write_once_witness :
  let first := Some "stopping on OS signal interrupt" in
  let pre := replicate 5 4%nat in
  let s0 := workgroup.launch g_registered w_registered in
  workgroup.first_to_terminate env_sigint pre s0 = Some (4%nat, first) /\
  (workgroup.result (workgroup.run env_sigint pre s0) = Some first /\
   workgroup.result (workgroup.run env_sigint (pre ++ round_robin) s0) =
     Some first /\
   (workgroup.drained (workgroup.run env_sigint (pre ++ round_robin) s0)
      = true ->
    fst (workgroup.Run env_sigint (pre ++ round_robin)
           g_registered w_registered) = Some first)).
Proof.
  split; [vm_compute; reflexivity |].
  apply (result_slot_write_once env_sigint g_registered w_registered
           (replicate 5 4%nat) round_robin 4%nat
           (Some "stopping on OS signal interrupt")).
  vm_compute. reflexivity.
Defined.

(** In that run the debug closer terminates later, with another outcome,
    and the group drains. *)
Example later_termination_observed :
  let s' := workgroup.run env_sigint (replicate 5 4%nat ++ round_robin)
              (workgroup.launch g_registered w_registered) in
  workgroup.tasks s' !! 1%nat =
    Some (workgroup.Returned
            (Some ("debug HTTP server" +:+
                   " on workgroup graceful shut down successful")))
  /\ workgroup.drained s' = true.
Proof. vm_compute. split; reflexivity. Qed.

End Evaluation.

(** ** Invariants of a run, thread by thread *)

Section thread_invariants.

Import workgroup.

Context {Handler_t : Type}.
Implicit Types (env : Env) (s : @Running_Group Handler_t).
Implicit Types (sched : list nat) (p : Prog error).

Lemma all_calls_passes_on P : passes_on (all_calls P).
Proof. intros X c k x [_ H]. apply H. Qed.

Lemma all_rets_passes_on (P : error -> Prop) : passes_on (all_rets P).
Proof. intros X c k x H. apply H. Qed.

Lemma step_thread_has R env i s s' j :
  passes_on R -> step env i s = Some s' ->
  thread_has R s j -> thread_has R s' j.
Proof.
  unfold step, thread_has. intros HR H.
  destruct (tasks s !! i) as [[[o | X c k] | o] |] eqn:Hi; try discriminate.
  - injection H as <-. simpl.
    destruct (decide (i = j)) as [<- | Hne].
    + rewrite Hi, list_lookup_insert_eq by (by eapply lookup_lt_Some). done.
    + by rewrite list_lookup_insert_ne.
  - destruct (handle env c (world s)) as [[x w'] |]; [| discriminate].
    injection H as <-. simpl.
    destruct (decide (i = j)) as [<- | Hne].
    + rewrite Hi, list_lookup_insert_eq by (by eapply lookup_lt_Some).
      apply HR.
    + by rewrite list_lookup_insert_ne.
Qed.

Lemma run_thread_has R env sched s j :
  passes_on R -> thread_has R s j -> thread_has R (run env sched s) j.
Proof.
  intros HR. revert s.
  induction sched as [| i sched IH]; intros s Hj; simpl; [done |].
  apply IH. destruct (step env i s) as [s' |] eqn:Hs; simpl; [| done].
  eapply step_thread_has; eauto.
Qed.

Lemma launch_thread_has R g (w : World Handler_t) j :
  (forall f, fn g !! j = Some f -> R (f (make_chan w))) ->
  thread_has R (launch g w) j.
Proof.
  intros H. unfold thread_has.
  destruct (tasks (launch g w) !! j) as [t |] eqn:Ht; [| done].
  unfold launch in Ht; simpl in Ht. rewrite list_lookup_fmap in Ht.
  apply fmap_Some in Ht as (f & Hf & ->). by apply H.
Qed.

(** A call leaves at most its own event in the history. *)
Lemma handle_trace env {X : Type} (c : Call X) (w w' : World Handler_t) x :
  handle env c w = Some (x, w') ->
  exists evs, trace w' = trace w ++ evs /\ Forall (call_event c) evs.
Proof.
  destruct c; simpl; intros H; repeat case_match; simplify_eq; simpl;
    first [ by exists []; rewrite app_nil_r
          | eexists [_]; split; [reflexivity |];
            by repeat constructor ].
Qed.

(** A call at [<-stop] returns only when the channel is closed. *)
Lemma waits_for_handle env stop {X : Type} (c : Call X)
    (k : X -> Prog error) (w w' : World Handler_t) x :
  waits_for stop (Vis c k) -> handle env c w = Some (x, w') ->
  is_closed stop w = true.
Proof.
  destruct c; simpl; try done. intros ->.
  by destruct (is_closed stop w).
Qed.

(** A call that [unblocked_by stop] allows goes through once [stop] is
    closed. *)
Lemma unblocked_handle env stop {X : Type} (c : Call X)
    (w : World Handler_t) :
  unblocked_by stop X c -> is_closed stop w = true ->
  is_Some (handle env c w).
Proof.
  destruct c; simpl; try done.
  - intros -> ->. done.
  - intros -> ->. destruct (interrupt_ready env w);
      [destruct (select_stop_first env (trace w)) |]; done.
Qed.

Lemma close_chan_trace c (w : World Handler_t) :
  trace (close_chan c w) = trace w.
Proof. unfold close_chan. by destruct (is_closed c w). Qed.


(** While no task has returned, the history holds only what the calls of
    tasks that are not waiting for the stop channel leave in it. *)
Lemma events_before_first_return env
    (P : forall X : Type, Call X -> Prop) (Q : Event -> Prop) sched s :
  (forall (X : Type) (c : Call X) ev, P X c -> call_event c ev -> Q ev) ->
  is_closed (stop s) (world s) = false ->
  (forall j p, tasks s !! j = Some (Running p) ->
               waits_for (stop s) p \/ all_calls P p) ->
  first_to_terminate env sched s = None ->
  exists evs, trace (world (run env sched s)) = trace (world s) ++ evs /\
              Forall Q evs.
Proof.
  intros HPQ. revert s.
  induction sched as [| i sched IH]; intros s Hopen Hthreads; simpl.
  { intros _. exists []. by rewrite app_nil_r. }
  unfold step.
  destruct (tasks s !! i) as [[[o | X c k] | o] |] eqn:Hi; simpl;
    try done; try by apply IH.
  destruct (handle env c (world s)) as [[x w'] |] eqn:Hh; simpl;
    [| by apply IH].
  destruct (Hthreads _ _ Hi) as [Hw | [Hc Hk]].
  { apply (waits_for_handle env (stop s) c k) in Hh; [congruence | done]. }
  intros Hnone.
  destruct (handle_trace _ _ _ _ _ Hh) as (evs1 & Htr1 & Hevs1).
  edestruct IH as (evs2 & Htr2 & Hevs2); [| | exact Hnone |].
  - simpl. unfold is_closed in *. by rewrite (handle_closed _ _ _ _ _ Hh).
  - simpl. intros j p.
    destruct (decide (i = j)) as [<- | Hne].
    + rewrite list_lookup_insert_eq by (by eapply lookup_lt_Some).
      intros [= <-]. right. apply Hk.
    + rewrite list_lookup_insert_ne by done. apply Hthreads.
  - exists (evs1 ++ evs2). simpl in Htr2. rewrite Htr2, Htr1, app_assoc.
    split; [done |]. apply Forall_app. split; [| done].
    eapply Forall_impl; [exact Hevs1 |]. intros ev. by apply HPQ.
Qed.

(** The history of a run holds only what the calls of its tasks leave in
    it. *)
Lemma events_of_run env
    (P : forall X : Type, Call X -> Prop) (Q : Event -> Prop) sched s :
  (forall (X : Type) (c : Call X) ev, P X c -> call_event c ev -> Q ev) ->
  (forall j, thread_has (all_calls P) s j) ->
  exists evs, trace (world (run env sched s)) = trace (world s) ++ evs /\
              Forall Q evs.
Proof.
  intros HPQ. revert s.
  induction sched as [| i sched IH]; intros s Hthreads; simpl.
  { exists []. by rewrite app_nil_r. }
  destruct (step env i s) as [s' |] eqn:Hs; simpl; [| by apply IH].
  destruct (IH s') as (evs2 & Htr2 & Hevs2).
  { intros j. eapply step_thread_has; eauto using all_calls_passes_on. }
  unfold step in Hs. specialize (Hthreads i). unfold thread_has in Hthreads.
  destruct (tasks s !! i) as [[[o | X c k] | o] |] eqn:Hi; try discriminate.
  - injection Hs as <-. simpl in Htr2. rewrite close_chan_trace in Htr2.
    eauto.
  - destruct (handle env c (world s)) as [[x w'] |] eqn:Hh; [| discriminate].
    injection Hs as <-. simpl in Htr2.
    destruct (handle_trace _ _ _ _ _ Hh) as (evs1 & Htr1 & Hevs1).
    exists (evs1 ++ evs2). rewrite Htr2, Htr1, app_assoc.
    split; [done |]. apply Forall_app. split; [| done].
    eapply Forall_impl; [exact Hevs1 |]. intros ev.
    apply HPQ, Hthreads.
Qed.

(** Once [stop] is closed, a task whose calls are all [unblocked_by stop]
    returns if it is given enough moves of its own. *)
Lemma solo_completion env p :
  forall s i,
    is_closed (stop s) (world s) = true ->
    tasks s !! i = Some (Running p) ->
    all_calls (unblocked_by (stop s)) p ->
    exists k o, tasks (run env (replicate k i) s) !! i = Some (Returned o).
Proof.
  induction p as [a | X c k IH]; intros s i Hclosed Hi Hp.
  - exists 1%nat, a. simpl. unfold step. rewrite Hi. simpl.
    apply list_lookup_insert_eq. by eapply lookup_lt_Some.
  - destruct Hp as [Hc Hk].
    destruct (unblocked_handle env _ c (world s) Hc Hclosed) as [[x w'] Hh].
    set (s1 := {| tasks := <[i := Running (k x)]> (tasks s);
                  stop := stop s; result := result s; world := w' |}).
    destruct (IH x s1 i) as (n & o & Hn).
    + simpl. unfold is_closed in *. by rewrite (handle_closed _ _ _ _ _ Hh).
    + simpl. apply list_lookup_insert_eq. by eapply lookup_lt_Some.
    + apply Hk.
    + exists (S n), o. simpl. unfold step. rewrite Hi, Hh. exact Hn.
Qed.

End thread_invariants.

(** ** Invariants of [Run] under every interleaving *)

(** Walk all paths of a straight-line program. *)
Ltac walk_prog :=
  repeat (cbn -[String.append];
          match goal with
          | |- _ /\ _ => split
          | H : ?P |- ?P => exact H
          | |- forall _ : error, _ => intros [? |]
          | |- forall _ : option _, _ => intros [? |]
          | |- forall _ : sum _ _, _ => intros [? | ?]
          | |- forall _, _ => intro
          | |- True => exact I
          | |- ?x = ?x => reflexivity
          | |- Some _ <> None => discriminate
          | |- _ ∈ _ :: _ => rewrite !elem_of_cons; by auto
          end).

Section Run_invariants.

Context {Handler_t : Type}.
Variable Signal_String : Signal -> string.
Implicit Types (env : Env) (g : @Group Handler_t) (w : World Handler_t).
Implicit Types (sched : list nat) (stop : chan).

Local Abbreviation register := (Run_register Signal_String).
Local Abbreviation watcher := (signal_watcher Signal_String).

(** The group as [Run] launches it. *)
Local Abbreviation launched g w :=
  (workgroup.launch (workgroup_Group (fst (fst (register g w))))
     (snd (register g w))).

(** What the workers can and cannot do. *)
Lemma closer_waits g server name stop :
  waits_for stop (call (chan_Recv stop);; shutdown g server name).
Proof. reflexivity. Qed.

Lemma listener_no_stop_call line server :
  all_calls no_stop_call
    (log_Printf line;; call (Server_ListenAndServe server)).
Proof. walk_prog. Qed.

Lemma watcher_no_stop_call stop : all_calls no_stop_call (watcher stop).
Proof. unfold signal_watcher. walk_prog. Qed.

Lemma shutdown_call_within g server name servers :
  server ∈ servers ->
  all_calls (call_within servers (ShutdownTimeout g))
    (shutdown g server name).
Proof. intros Hin. unfold shutdown. walk_prog. Qed.

Lemma shutdown_unblocked g server name stop :
  all_calls (unblocked_by stop) (shutdown g server name).
Proof. unfold shutdown. walk_prog. Qed.

Lemma shutdown_rets g server name :
  all_rets (fun e => e <> None) (shutdown g server name).
Proof. unfold shutdown, fmt_Errorf. walk_prog. Qed.

Lemma closer_unblocked g server name stop :
  all_calls (unblocked_by stop)
    (call (chan_Recv stop);; shutdown g server name).
Proof. split; [done |]. intros []. apply shutdown_unblocked. Qed.

Lemma closer_rets g server name stop :
  all_rets (fun e => e <> None)
    (call (chan_Recv stop);; shutdown g server name).
Proof. intros []. apply shutdown_rets. Qed.

Lemma watcher_unblocked stop : all_calls (unblocked_by stop) (watcher stop).
Proof. unfold signal_watcher. walk_prog. Qed.

Lemma watcher_rets stop : all_rets (fun e => e <> None) (watcher stop).
Proof. unfold signal_watcher, fmt_Errorf. walk_prog. Qed.

(** Which worker sits at which index. *)
Lemma registered_cases g w j f :
  let n := length (workgroup.fn (workgroup_Group g)) in
  let debugServer := length (heap w) in
  let serviceServer := S (length (heap w)) in
  workgroup.fn (workgroup_Group (fst (fst (register g w)))) !! j = Some f ->
  (j < n)%nat /\ workgroup.fn (workgroup_Group g) !! j = Some f \/
  j = n /\ f = debug_listener g debugServer \/
  j = (n + 1)%nat /\ f = debug_closer g debugServer \/
  j = (n + 2)%nat /\ f = service_listener g serviceServer \/
  j = (n + 3)%nat /\ f = service_closer g serviceServer \/
  j = (n + 4)%nat /\ f = watcher.
Proof.
  cbv zeta. destruct (Run_register_eq Signal_String g w) as (Hfn & _ & _).
  rewrite Hfn. clear Hfn. intros Hj.
  apply lookup_app_Some in Hj as [Hj | [Hle Hj]].
  - left. split; [by eapply lookup_lt_Some | done].
  - right.
    assert (j = (length (workgroup.fn (workgroup_Group g)) +
                 (j - length (workgroup.fn (workgroup_Group g))))%nat)
    as Hsum by lia.
    destruct (j - length (workgroup.fn (workgroup_Group g)))%nat
      as [| [| [| [| [| k]]]]]; simplify_eq/=;
      rewrite ?Nat.add_0_r; auto 10.
Qed.

Lemma registered_lookup g w k f :
  let n := length (workgroup.fn (workgroup_Group g)) in
  [debug_listener g (length (heap w)); debug_closer g (length (heap w));
   service_listener g (S (length (heap w)));
   service_closer g (S (length (heap w))); watcher] !! k = Some f ->
  workgroup.tasks (launched g w) !! (n + k)%nat =
  Some (workgroup.Running (f (workgroup.stop (launched g w)))).
Proof.
  cbv zeta. intros Hk. unfold workgroup.launch.
  cbn [workgroup.tasks workgroup.stop]. rewrite list_lookup_fmap.
  destruct (Run_register_eq Signal_String g w) as (Hfn & _ & _).
  rewrite Hfn. rewrite lookup_app_r by apply Nat.le_add_r.
  rewrite Nat.add_simpl_l.
  by destruct k as [| [| [| [| [| k]]]]]; simplify_eq/=.
Qed.

Lemma launched_thread g w j p :
  workgroup.tasks (launched g w) !! j = Some (workgroup.Running p) ->
  exists f,
    workgroup.fn (workgroup_Group (fst (fst (register g w)))) !! j = Some f /\
    p = f (workgroup.stop (launched g w)).
Proof.
  unfold workgroup.launch. cbn [workgroup.tasks workgroup.stop].
  rewrite list_lookup_fmap. intros H.
  apply fmap_Some in H as (f & Hf & [= ->]). eauto.
Qed.

Lemma run_stop_eq env sched (s : @workgroup.Running_Group Handler_t) :
  workgroup.stop (workgroup.run env sched s) = workgroup.stop s.
Proof.
  revert s. induction sched as [| i sched IH]; intros s; simpl; [done |].
  rewrite IH. destruct (workgroup.step env i s) as [s' |] eqn:Hs; [| done].
  by destruct (step_stop_kept _ _ _ _ Hs).
Qed.

(** The three workers that never return nil, and that nothing can hold up
    once the stop channel is closed. *)
Lemma stoppers_thread_has g w j :
  let n := length (workgroup.fn (workgroup_Group g)) in
  j = (n + 1)%nat \/ j = (n + 3)%nat \/ j = (n + 4)%nat ->
  (j < length (workgroup.tasks (launched g w)))%nat /\
  thread_has (all_rets (fun e => e <> None)) (launched g w) j /\
  thread_has (all_calls (unblocked_by (workgroup.stop (launched g w))))
    (launched g w) j.
Proof.
  cbv zeta. intros Hj.
  assert (exists k f,
    j = (length (workgroup.fn (workgroup_Group g)) + k)%nat /\
    [debug_listener g (length (heap w)); debug_closer g (length (heap w));
     service_listener g (S (length (heap w)));
     service_closer g (S (length (heap w))); watcher] !! k = Some f /\
    (forall stop, all_rets (fun e => e <> None) (f stop)) /\
    (forall stop, all_calls (unblocked_by stop) (f stop)))
    as (k & f & -> & Hk & Hrets & Hcalls).
  { destruct Hj as [-> | [-> | ->]].
    - exists 1%nat, (debug_closer g (length (heap w))).
      do 2 (split; [done |]).
      split; intros c; [apply closer_rets | apply closer_unblocked].
    - exists 3%nat, (service_closer g (S (length (heap w)))).
      do 2 (split; [done |]).
      split; intros c; [apply closer_rets | apply closer_unblocked].
    - exists 4%nat, watcher.
      do 2 (split; [done |]).
      split; intros c; [apply watcher_rets | apply watcher_unblocked]. }
  pose proof (registered_lookup g w k f Hk) as Hlook. cbv zeta in Hlook.
  split; [by eapply lookup_lt_Some |].
  unfold thread_has. rewrite Hlook. auto.
Qed.


(** X6. As long as no worker has returned, no server has been told to
    stop, gracefully or by force, provided the workers that the user
    added do not stop servers themselves. *)
Theorem no_stop_before_first_return env sched g w :
  (forall f stop, f ∈ workgroup.fn (workgroup_Group g) ->
                  all_calls no_stop_call (f stop)) ->
  workgroup.first_to_terminate env sched (launched g w) = None ->
  forall ev,
    ev ∈ new_events (snd (register g w))
           (workgroup.world (workgroup.run env sched (launched g w))) ->
    is_stop_event ev = false.
Proof.
  intros Huser Hnone.
  destruct (events_before_first_return env no_stop_call
              (fun ev => is_stop_event ev = false) sched (launched g w))
    as (evs & Htr & Hevs); try done.
  - intros X c ev. by destruct c, ev.
  - apply make_chan_fresh.
  - intros j p Hj. apply launched_thread in Hj as (f & Hf & ->).
    apply registered_cases in Hf
      as [[_ Hf] | [[_ ->] | [[_ ->] | [[_ ->] | [[_ ->] | [_ ->]]]]]].
    + right. apply Huser. by eapply list_elem_of_lookup_2.
    + right. apply listener_no_stop_call.
    + left. apply closer_waits.
    + right. apply listener_no_stop_call.
    + left. apply closer_waits.
    + right. apply watcher_no_stop_call.
  - intros ev. unfold new_events. rewrite Htr.
    change (workgroup.world (launched g w)) with (snd (register g w)).
    rewrite drop_app_length. intros Hin.
    by eapply Forall_forall in Hevs.
Qed.

(** The five workers only ever call the two servers of [Run], with the
    group's deadline. *)
Lemma launched_events_within env sched g w :
  workgroup.fn (workgroup_Group g) = [] ->
  exists evs,
    trace (workgroup.world (workgroup.run env sched (launched g w))) =
      trace (snd (register g w)) ++ evs /\
    Forall (event_within [length (heap w); S (length (heap w))]
              (ShutdownTimeout g)) evs.
Proof.
  intros Hfresh.
  set (servers := [length (heap w); S (length (heap w))]).
  apply (events_of_run env (call_within servers (ShutdownTimeout g))
           (event_within servers (ShutdownTimeout g)) sched (launched g w)).
  - intros X c ev. destruct c, ev; simpl; try done.
    + by intros ? <-.
    + by intros [? ->] [<- ->].
    + by intros ? <-.
  - intros j. apply launch_thread_has. intros f Hf.
    apply registered_cases in Hf
      as [[Hlt _] | [[_ ->] | [[_ ->] | [[_ ->] | [[_ ->] | [_ ->]]]]]].
    + rewrite Hfresh in Hlt. simpl in Hlt. lia.
    + unfold debug_listener, servers. walk_prog.
    + split; [done |]. intros []. apply shutdown_call_within.
      unfold servers. rewrite !elem_of_cons. auto.
    + unfold service_listener, servers. walk_prog.
    + split; [done |]. intros []. apply shutdown_call_within.
      unfold servers. rewrite !elem_of_cons. auto.
    + unfold signal_watcher. walk_prog.
Qed.


(** X8. If [Run] returns nil, the first worker to return was one that the
    user added or one of the two listeners: the closers and the signal
    watcher never make [Run] return nil. *)
Theorem Run_nil_only_from_listener env sched g w :
  let n := length (workgroup.fn (workgroup_Group g)) in
  fst (Run Signal_String env sched g w) = Some None ->
  exists i,
    workgroup.first_to_terminate env sched (launched g w) = Some (i, None) /\
    ((i < n)%nat \/ i = n \/ i = (n + 2)%nat).
Proof.
  cbv zeta. intros Hrun.
  apply Run_result_is_first_worker in Hrun as (_ & i & Hfirst & Hi).
  cbv zeta in Hfirst, Hi. exists i. split; [done |].
  assert (forall j,
    j = (length (workgroup.fn (workgroup_Group g)) + 1)%nat \/
    j = (length (workgroup.fn (workgroup_Group g)) + 3)%nat \/
    j = (length (workgroup.fn (workgroup_Group g)) + 4)%nat -> i <> j)
    as Hnot.
  { intros j Hj ->.
    destruct (stoppers_thread_has g w j Hj) as (_ & Hrets & _).
    apply (run_thread_has _ env sched) in Hrets;
      [| apply all_rets_passes_on].
    unfold thread_has in Hrets. rewrite Hi in Hrets. by apply Hrets. }
  assert (is_Some (workgroup.fn
            (workgroup_Group (fst (fst (register g w)))) !! i))
    as [f Hf].
  { apply lookup_lt_is_Some. apply lookup_lt_Some in Hi.
    rewrite run_length in Hi. unfold workgroup.launch in Hi.
    simpl in Hi. by rewrite length_map in Hi. }
  apply registered_cases in Hf
    as [[Hlt _] | [[-> _] | [[-> _] | [[-> _] | [[-> _] | [-> _]]]]]];
    auto; exfalso; (eapply Hnot; [| reflexivity]); auto.
Qed.

(** X9. Once any worker has returned, each closer and the signal watcher
    can run to its end whatever the servers and the other workers do:
    given enough moves of its own it returns, and what it returns is not
    nil. *)
Theorem stoppers_finish_after_first_return env sched g w i r j :
  let n := length (workgroup.fn (workgroup_Group g)) in
  workgroup.first_to_terminate env sched (launched g w) = Some (i, r) ->
  j = (n + 1)%nat \/ j = (n + 3)%nat \/ j = (n + 4)%nat ->
  exists k o,
    workgroup.tasks
      (workgroup.run env (sched ++ replicate k j) (launched g w)) !! j =
    Some (workgroup.Returned o) /\
    o <> None.
Proof.
  cbv zeta. intros Hfirst Hj.
  destruct (stoppers_thread_has g w j Hj) as (Hlt & Hrets & Hcalls).
  apply first_return_raises_stop in Hfirst as Hclosed.
  set (s := workgroup.run env sched (launched g w)) in *.
  assert (exists k o,
    workgroup.tasks (workgroup.run env (replicate k j) s) !! j =
    Some (workgroup.Returned o)) as (k & o & Hk).
  { apply (run_thread_has _ env sched) in Hcalls;
      [| apply all_calls_passes_on].
    fold s in Hcalls. unfold thread_has in Hcalls.
    destruct (workgroup.tasks s !! j) as [[p | o] |] eqn:Hsj.
    - eapply solo_completion; eauto.
      unfold s at 1. by rewrite run_stop_eq.
    - by exists 0%nat, o.
    - apply lookup_ge_None in Hsj. unfold s in Hsj.
      rewrite run_length in Hsj. lia. }
  exists k, o. rewrite run_app. fold s. split; [done |].
  apply (run_thread_has _ env (sched ++ replicate k j)) in Hrets;
    [| apply all_rets_passes_on].
  unfold thread_has in Hrets. rewrite run_app in Hrets. fold s in Hrets.
  by rewrite Hk in Hrets.
Qed.

End Run_invariants.

(** ** More about [shutdown], the servers of [Run] and the watcher *)

Section more_properties.

Context {Handler_t : Type}.
Variable Signal_String : Signal -> string.
Implicit Types (env : Env) (g : @Group Handler_t) (w : World Handler_t).

Local Abbreviation watcher := (signal_watcher Signal_String).



Lemma lookup_two_pairs {A : Type} (l : list A) (a b a' b' : A) :
  let l' := (l ++ [a; b]) ++ [a'; b'] in
  l' !! length l = Some a /\ l' !! S (length l) = Some b /\
  l' !! (length l + 2)%nat = Some a' /\
  l' !! S (length l + 2)%nat = Some b'.
Proof.
  cbv zeta. rewrite <- app_assoc. simpl.
  repeat split; rewrite lookup_app_r by lia.
  - by rewrite Nat.sub_diag.
  - by replace (S _ - _)%nat with 1%nat by lia.
  - by replace (_ + 2 - _)%nat with 2%nat by lia.
  - by replace (S _ - _)%nat with 3%nat by lia.
Qed.

(** X3. [Run] adds to the group every time it is called: a second call
    on the same group creates two more servers, on the same two addresses
    as the first two, and registers five more workers, so that ten would
    be launched. *)
Theorem Run_twice_registers_ten g w :
  let first := Run_register Signal_String g w in
  let second := Run_register Signal_String (fst (fst first)) (snd first) in
  let n := length (workgroup.fn (workgroup_Group g)) in
  length (workgroup.fn (workgroup_Group (fst (fst second)))) =
    (n + 10)%nat /\
  length (heap (snd second)) = (length (heap w) + 4)%nat /\
  fst (snd (fst second)) <> fst (snd (fst first)) /\
  snd (snd (fst second)) <> snd (snd (fst first)) /\
  srv_Addr <$> heap (snd second) !! fst (snd (fst first)) =
    Some (DebugServerAddr g) /\
  srv_Addr <$> heap (snd second) !! fst (snd (fst second)) =
    Some (DebugServerAddr g) /\
  srv_Addr <$> heap (snd second) !! snd (snd (fst first)) =
    Some (ServiceServerAddr g) /\
  srv_Addr <$> heap (snd second) !! snd (snd (fst second)) =
    Some (ServiceServerAddr g).
Proof.
  cbv zeta.
  destruct (Run_register_eq Signal_String g w) as (Hfn1 & Hs1 & Hw1).
  destruct (Run_register_eq Signal_String
              (fst (fst (Run_register Signal_String g w)))
              (snd (Run_register Signal_String g w))) as (Hfn2 & Hs2 & Hw2).
  rewrite Hfn2, Hs2, Hw2, Hfn1, Hs1, Hw1. cbn [fst snd heap].
  rewrite !length_app. cbn [length].
  split; [lia |]. split; [lia |]. split; [lia |]. split; [lia |].
  match goal with
  | |- context [(heap w ++ [?a; ?b]) ++ [?a'; ?b']] =>
      destruct (lookup_two_pairs (heap w) a b a' b') as (H1 & H2 & H3 & H4)
  end.
  cbv zeta in H1, H2, H3, H4.
  split; [exact (f_equal (fmap srv_Addr) H1) |].
  split; [exact (f_equal (fmap srv_Addr) H3) |].
  split; [exact (f_equal (fmap srv_Addr) H2) |].
  exact (f_equal (fmap srv_Addr) H4).
Qed.


End more_properties.

(** ** The example server *)

Section example_server_properties.

Import example_server.

Context {Handler_t : Type}.
Variable Signal_String : Signal -> string.

(** X10. In the example server a request to [/work] sleeps for at least
    five seconds and for less than the ten seconds that [main] gives the
    graceful stop, without overflow: a request in flight when the group
    stops can finish within the deadline. *)
Theorem work_sleep_within_deadline (mux : Handler_t) (intn : Z) :
  0 <= intn < 5000 ->
  work_sleep intn = (intn + 5000) * 1000000 /\
  5 * time_Second <= work_sleep intn /\
  work_sleep intn < ShutdownTimeout (main_group mux).
Proof.
  intros Hintn. unfold work_sleep, work_sleepTimeMillis, wrap_int64,
    time_Millisecond, time_Second.
  cbn [main_group ShutdownTimeout].
  rewrite (Z.mod_small (intn + 5000 + 2 ^ 63)) by lia.
  replace (intn + 5000 + 2 ^ 63 - 2 ^ 63) with (intn + 5000) by lia.
  rewrite Z.mod_small by lia. unfold time_Second. lia.
Qed.

(** X11. In the example server, whatever the servers, the signals and
    the interleaving do: every call that reaches a server is on one of
    the two servers of [Run], every graceful stop has a deadline of
    exactly ten seconds, and if [Run] has returned, the last line that
    [main] logs names the value it returned. *)
Theorem main_events env sched (mux : Handler_t) (w : World Handler_t) :
  let w' := main Signal_String env sched mux w in
  let news := new_events w w' in
  trace w' = trace w ++ news /\
  (forall ev, ev ∈ news ->
     event_within [length (heap w); S (length (heap w))] 10000000000 ev) /\
  (forall err,
     fst (Run Signal_String env sched (main_group mux) w) = Some err ->
     last (log_lines news) =
     Some ("Servicegroup terminated due to initial worker termination: "
           +:+ fmt_s err)).
Proof.
  cbv zeta. unfold main, Run.
  destruct (launched_events_within Signal_String env sched
              (main_group mux) w eq_refl) as (evs & Htr & Hevs).
  destruct (Run_register_eq Signal_String (main_group mux) w)
    as (_ & _ & Hw).
  rewrite Hw in Htr. cbn [trace] in Htr.
  destruct (Run_register Signal_String (main_group mux) w)
    as [[g1 servers] w1] eqn:Hreg.
  cbn [fst snd] in *. subst w1. unfold workgroup.Run. cbn [fst snd].
  set (s := workgroup.run env sched _) in *.
  destruct (workgroup.Run_result s) as [err |] eqn:Hres;
    unfold new_events, record; cbn [trace]; rewrite Htr, <- !app_assoc;
    rewrite drop_app_length; (split; [reflexivity |]); split.
  - apply Forall_forall. simpl. constructor; [done |].
    apply Forall_app. split; [exact Hevs |]. by constructor.
  - intros err' [= <-]. unfold log_lines.
    rewrite !app_assoc, omap_app. cbn -[String.append app].
    by rewrite last_snoc.
  - apply Forall_forall. simpl. constructor; [done | exact Hevs].
  - intros err' [=].
Qed.

End example_server_properties.

(** ** [Run] can always complete after a first return *)

Section Run_completion.

Context {Handler_t : Type}.
Variable Signal_String : Signal -> string.
Implicit Types (env : Env) (g : @Group Handler_t) (w : World Handler_t).
Implicit Types (s : @workgroup.Running_Group Handler_t).
Implicit Types (sched : list nat) (server : ptr).

Local Abbreviation register := (Run_register Signal_String).
Local Abbreviation watcher := (signal_watcher Signal_String).
Local Abbreviation launched g w :=
  (workgroup.launch (workgroup_Group (fst (fst (register g w))))
     (snd (register g w))).

Lemma stopped_app server (tr evs : list Event) :
  stopped server tr -> stopped server (tr ++ evs).
Proof.
  intros (ev & Hin & Hev). exists ev. split; [| done].
  apply elem_of_app. by left.
Qed.

Lemma stable_closed env (c : chan) :
  stable (Handler_t := Handler_t) env (fun w => is_closed c w = true).
Proof.
  split.
  - intros X c' w x w' Hc Hh. unfold is_closed in *.
    by rewrite (handle_closed _ _ _ _ _ Hh).
  - intros c' w Hc. unfold close_chan.
    destruct (is_closed c' w); [done |].
    unfold is_closed in *. simpl. apply bool_decide_eq_true.
    apply bool_decide_eq_true in Hc. by right.
Qed.

Lemma stable_stopped env server :
  stable (Handler_t := Handler_t) env (fun w => stopped server (trace w)).
Proof.
  split.
  - intros X c w x w' Hs Hh.
    destruct (handle_trace _ _ _ _ _ Hh) as (evs & -> & _).
    by apply stopped_app.
  - intros c w Hs. by rewrite close_chan_trace.
Qed.

Lemma run_stable env (I : World Handler_t -> Prop) sched s :
  stable env I -> I (workgroup.world s) ->
  I (workgroup.world (workgroup.run env sched s)).
Proof.
  intros [Hcall Hclose]. revert s.
  induction sched as [| i sched IH]; intros s HI; simpl; [done |].
  apply IH. unfold workgroup.step.
  destruct (workgroup.tasks s !! i) as [[[o | X c k] | o] |]; simpl;
    try done.
  - by apply Hclose.
  - destruct (handle env c (workgroup.world s)) as [[x w'] |] eqn:Hh;
      simpl; [| done].
    by eapply Hcall.
Qed.

(** A task all of whose calls go through in a world with [I], where [I]
    is stable, returns if it is given enough moves. *)
Lemma solo_completion_in env (I : World Handler_t -> Prop)
    (P : forall X : Type, Call X -> Prop) (p : Prog error) :
  stable env I ->
  (forall (X : Type) (c : Call X) w,
     I w -> P X c -> is_Some (handle env c w)) ->
  forall s j,
    I (workgroup.world s) ->
    workgroup.tasks s !! j = Some (workgroup.Running p) ->
    all_calls P p ->
    exists k o,
      workgroup.tasks (workgroup.run env (replicate k j) s) !! j =
      Some (workgroup.Returned o).
Proof.
  intros Hstable Hgo.
  induction p as [a | X c k IH]; intros s j HI Hj Hp.
  - exists 1%nat, a. simpl. unfold workgroup.step. rewrite Hj. simpl.
    apply list_lookup_insert_eq. by eapply lookup_lt_Some.
  - destruct Hp as [Hc Hk].
    destruct (Hgo _ c (workgroup.world s) HI Hc) as [[x w'] Hh].
    set (s1 := {| workgroup.tasks :=
                    <[j := workgroup.Running (k x)]> (workgroup.tasks s);
                  workgroup.stop := workgroup.stop s;
                  workgroup.result := workgroup.result s;
                  workgroup.world := w' |}).
    destruct (IH x s1 j) as (n & o & Hn).
    + simpl. destruct Hstable as [Hcall _]. by eapply Hcall.
    + simpl. apply list_lookup_insert_eq. by eapply lookup_lt_Some.
    + apply Hk.
    + exists (S n), o. simpl. unfold workgroup.step. rewrite Hj, Hh.
      exact Hn.
Qed.

Lemma advance env (I : World Handler_t -> Prop)
    (P : forall X : Type, Call X -> Prop) s j :
  stable env I ->
  (forall (X : Type) (c : Call X) w,
     I w -> P X c -> is_Some (handle env c w)) ->
  I (workgroup.world s) ->
  thread_has (all_calls P) s j ->
  (j < length (workgroup.tasks s))%nat ->
  exists k o,
    workgroup.tasks (workgroup.run env (replicate k j) s) !! j =
    Some (workgroup.Returned o).
Proof.
  intros Hstable Hgo HI Hj Hlt. unfold thread_has in Hj.
  destruct (workgroup.tasks s !! j) as [[p | o] |] eqn:Hsj.
  - eapply solo_completion_in; eauto.
  - by exists 0%nat, o.
  - apply lookup_ge_None in Hsj. lia.
Qed.

(** A stop call on [server] shows in the history. *)
Lemma handle_stops env server {X : Type} (c : Call X) w x w' :
  match c with
  | Server_Shutdown s _ | Server_Close s => s = server
  | _ => False
  end ->
  handle env c w = Some (x, w') -> stopped server (trace w').
Proof.
  destruct c; simpl; try done; intros -> [= <- <-]; simpl;
    eexists; (split; [apply elem_of_app; right; apply list_elem_of_singleton;
                      reflexivity |]);
    simpl; by apply bool_decide_eq_true.
Qed.

Lemma step_thread_stops env server i s s' j :
  workgroup.step env i s = Some s' ->
  thread_stops server s j -> thread_stops server s' j.
Proof.
  unfold workgroup.step, thread_stops. intros H.
  destruct (workgroup.tasks s !! i) as [[[o | X c k] | o] |] eqn:Hi;
    try discriminate.
  - injection H as <-. simpl. rewrite close_chan_trace.
    destruct (decide (i = j)) as [<- | Hne].
    + rewrite Hi, list_lookup_insert_eq by (by eapply lookup_lt_Some).
      by intros [? | []].
    + by rewrite list_lookup_insert_ne.
  - destruct (handle env c (workgroup.world s)) as [[x w'] |] eqn:Hh;
      [| discriminate].
    injection H as <-. simpl.
    destruct (handle_trace _ _ _ _ _ Hh) as (evs & Htr & _).
    destruct (decide (i = j)) as [<- | Hne].
    + rewrite Hi, list_lookup_insert_eq by (by eapply lookup_lt_Some).
      intros [Hs | [Hc | Hk]].
      * left. rewrite Htr. by apply stopped_app.
      * left. by eapply handle_stops.
      * right. apply Hk.
    + rewrite list_lookup_insert_ne by done.
      destruct (workgroup.tasks s !! j) as [[p | o] |]; [| | done].
      * intros [Hs | Hp]; [left | by right].
        rewrite Htr. by apply stopped_app.
      * intros Hs. rewrite Htr. by apply stopped_app.
Qed.

Lemma run_thread_stops env server sched s j :
  thread_stops server s j ->
  thread_stops server (workgroup.run env sched s) j.
Proof.
  revert s. induction sched as [| i sched IH]; intros s Hj; simpl; [done |].
  apply IH. destruct (workgroup.step env i s) as [s' |] eqn:Hs; simpl;
    [| done].
  eapply step_thread_stops; eauto.
Qed.

Lemma closer_must_stop g server name (stop : chan) :
  must_stop server (call (chan_Recv stop);; shutdown g server name).
Proof. right. intros []. right. intros []. left. reflexivity. Qed.

Lemma listener_listens_only line server :
  all_calls (listens_only server)
    (log_Printf line;; call (Server_ListenAndServe server)).
Proof. walk_prog. Qed.

(** The threads of a group to which the user has added nothing. *)
Lemma fresh_launched g w :
  workgroup.fn (workgroup_Group g) = [] ->
  let c := workgroup.stop (launched g w) in
  let debugServer := length (heap w) in
  let serviceServer := S (length (heap w)) in
  workgroup.tasks (launched g w) =
  [workgroup.Running (debug_listener g debugServer c);
   workgroup.Running (debug_closer g debugServer c);
   workgroup.Running (service_listener g serviceServer c);
   workgroup.Running (service_closer g serviceServer c);
   workgroup.Running (watcher c)].
Proof.
  intros Hfresh. cbv zeta. unfold workgroup.launch.
  cbn [workgroup.tasks workgroup.stop].
  destruct (Run_register_eq Signal_String g w) as (Hfn & _ & _).
  rewrite Hfn, Hfresh. reflexivity.
Qed.

(** What holds of the five threads from the first return on. *)
Local Abbreviation facts c debugServer serviceServer r s :=
  (is_closed c (workgroup.world s) = true /\
   workgroup.result s = Some r /\
   length (workgroup.tasks s) = 5%nat /\
   thread_has (all_calls (listens_only debugServer)) s 0 /\
   thread_has (all_calls (unblocked_by c)) s 1 /\
   thread_has (all_calls (listens_only serviceServer)) s 2 /\
   thread_has (all_calls (unblocked_by c)) s 3 /\
   thread_has (all_calls (unblocked_by c)) s 4 /\
   thread_stops debugServer s 1 /\
   thread_stops serviceServer s 3).

Lemma facts_run env c debugServer serviceServer r sched s :
  facts c debugServer serviceServer r s ->
  facts c debugServer serviceServer r (workgroup.run env sched s).
Proof.
  intros (Hc & Hr & Hlen & H0 & H1 & H2 & H3 & H4 & T1 & T3).
  split; [by apply (run_stable env _ sched s (stable_closed env c)) |].
  split; [by apply run_result_kept |].
  split; [by rewrite run_length |].
  repeat split;
    first [ by apply run_thread_has; [apply all_calls_passes_on |]
          | by apply run_thread_stops ].
Qed.

(** X12. A group to which the user has added no worker can always finish
    once one of its workers has returned, provided [ListenAndServe]
    returns once its server has been told to stop: the run can be
    continued so that all five workers return, and [Run] then returns the
    value of the worker that had returned first. *)
Theorem Run_can_complete env sched g w i r :
  workgroup.fn (workgroup_Group g) = [] ->
  (forall tr server,
     stopped server tr -> is_Some (listen_ret env tr server)) ->
  workgroup.first_to_terminate env sched (launched g w) = Some (i, r) ->
  exists post, fst (Run Signal_String env (sched ++ post) g w) = Some r.
Proof.
  intros Hfresh Hnet Hfirst.
  pose proof (fresh_launched g w Hfresh) as Htasks. cbv zeta in Htasks.
  set (s0 := launched g w) in *.
  set (c := workgroup.stop s0) in *.
  set (d := length (heap w)) in *. set (sv := S (length (heap w))) in *.
  (* the facts at the first return *)
  assert (facts c d sv r (workgroup.run env sched s0)) as F1.
  { assert (forall R j, thread_has R s0 j ->
              passes_on R -> thread_has R (workgroup.run env sched s0) j)
      as Hrun by (intros; by apply run_thread_has).
    split.
    { unfold c. rewrite <- (run_stop_eq env sched s0).
      by eapply first_return_raises_stop. }
    split.
    { pose proof (first_to_terminate_result env sched s0
                    (launch_all_running _ _) eq_refl) as H.
      rewrite Hfirst in H. apply H. }
    split; [by rewrite run_length, Htasks |].
    assert (workgroup.tasks s0 !! 0%nat =
            Some (workgroup.Running (debug_listener g d c))) as L0
      by (by rewrite Htasks).
    assert (workgroup.tasks s0 !! 1%nat =
            Some (workgroup.Running (debug_closer g d c))) as L1
      by (by rewrite Htasks).
    assert (workgroup.tasks s0 !! 2%nat =
            Some (workgroup.Running (service_listener g sv c))) as L2
      by (by rewrite Htasks).
    assert (workgroup.tasks s0 !! 3%nat =
            Some (workgroup.Running (service_closer g sv c))) as L3
      by (by rewrite Htasks).
    assert (workgroup.tasks s0 !! 4%nat =
            Some (workgroup.Running (watcher c))) as L4
      by (by rewrite Htasks).
    split.
    { apply Hrun; [| apply all_calls_passes_on].
      unfold thread_has. rewrite L0. apply listener_listens_only. }
    split.
    { apply Hrun; [| apply all_calls_passes_on].
      unfold thread_has. rewrite L1. apply closer_unblocked. }
    split.
    { apply Hrun; [| apply all_calls_passes_on].
      unfold thread_has. rewrite L2. apply listener_listens_only. }
    split.
    { apply Hrun; [| apply all_calls_passes_on].
      unfold thread_has. rewrite L3. apply closer_unblocked. }
    split.
    { apply Hrun; [| apply all_calls_passes_on].
      unfold thread_has. rewrite L4. apply watcher_unblocked. }
    split.
    { apply run_thread_stops. unfold thread_stops. rewrite L1.
      right. apply closer_must_stop. }
    apply run_thread_stops. unfold thread_stops. rewrite L3.
    right. apply closer_must_stop. }
  (* how a thread is taken to its return *)
  assert (Hstoppers : forall s j,
    facts c d sv r s ->
    thread_has (all_calls (unblocked_by c)) s j ->
    (j < 5)%nat ->
    exists k o,
      workgroup.tasks (workgroup.run env (replicate k j) s) !! j =
      Some (workgroup.Returned o)).
  { intros s j (Hc & _ & Hlen & _) Hj Hlt.
    apply (advance env (fun w => is_closed c w = true) (unblocked_by c));
      [apply stable_closed | | done | done | lia].
    intros X c' w0 Hw0 Hu. by apply (unblocked_handle env c). }
  assert (Hlisteners : forall s j server,
    stopped server (trace (workgroup.world s)) ->
    length (workgroup.tasks s) = 5%nat ->
    thread_has (all_calls (listens_only server)) s j ->
    (j < 5)%nat ->
    exists k o,
      workgroup.tasks (workgroup.run env (replicate k j) s) !! j =
      Some (workgroup.Returned o)).
  { intros s j server Hs Hlen Hj Hlt.
    apply (advance env (fun w => stopped server (trace w))
             (listens_only server));
      [apply stable_stopped | | done | done | lia].
    intros X c' w0 Hw0. destruct c'; simpl; try done.
    intros ->. by destruct (Hnet _ _ Hw0) as [ret ->]. }
  (* debug closer, service closer, watcher, then the two listeners *)
  set (s1 := workgroup.run env sched s0) in *.
  destruct (Hstoppers s1 1%nat F1) as (k1 & o1 & R1);
    [apply F1 | lia |].
  set (s2 := workgroup.run env (replicate k1 1%nat) s1) in *.
  pose proof (facts_run env c d sv r (replicate k1 1%nat) s1 F1) as F2.
  fold s2 in F2.
  destruct (Hstoppers s2 3%nat F2) as (k3 & o3 & R3);
    [apply F2 | lia |].
  set (s3 := workgroup.run env (replicate k3 3%nat) s2) in *.
  pose proof (facts_run env c d sv r (replicate k3 3%nat) s2 F2) as F3.
  fold s3 in F3.
  destruct (Hstoppers s3 4%nat F3) as (k4 & o4 & R4);
    [apply F3 | lia |].
  set (s4 := workgroup.run env (replicate k4 4%nat) s3) in *.
  pose proof (facts_run env c d sv r (replicate k4 4%nat) s3 F3) as F4.
  fold s4 in F4.
  assert (workgroup.tasks s4 !! 1%nat = Some (workgroup.Returned o1)) as R1'.
  { unfold s4, s3. by do 2 apply run_Returned_kept. }
  assert (workgroup.tasks s4 !! 3%nat = Some (workgroup.Returned o3)) as R3'.
  { unfold s4. by apply run_Returned_kept. }
  assert (stopped d (trace (workgroup.world s4))) as Sd.
  { destruct F4 as (_ & _ & _ & _ & _ & _ & _ & _ & T1 & _).
    unfold thread_stops in T1. by rewrite R1' in T1. }
  assert (stopped sv (trace (workgroup.world s4))) as Ssv.
  { destruct F4 as (_ & _ & _ & _ & _ & _ & _ & _ & _ & T3).
    unfold thread_stops in T3. by rewrite R3' in T3. }
  destruct (Hlisteners s4 0%nat d Sd) as (k0 & o0 & R0);
    [apply F4 | apply F4 | lia |].
  set (s5 := workgroup.run env (replicate k0 0%nat) s4) in *.
  pose proof (facts_run env c d sv r (replicate k0 0%nat) s4 F4) as F5.
  fold s5 in F5.
  assert (stopped sv (trace (workgroup.world s5))) as Ssv5.
  { by apply (run_stable env _ _ s4 (stable_stopped env sv)). }
  destruct (Hlisteners s5 2%nat sv Ssv5) as (k2 & o2 & R2);
    [apply F5 | apply F5 | lia |].
  set (s6 := workgroup.run env (replicate k2 2%nat) s5) in *.
  pose proof (facts_run env c d sv r (replicate k2 2%nat) s5 F5) as F6.
  fold s6 in F6.
  (* the group has drained *)
  exists (replicate k1 1%nat ++ replicate k3 3%nat ++ replicate k4 4%nat ++
          replicate k0 0%nat ++ replicate k2 2%nat).
  unfold Run.
  destruct (register g w) as [[g1 servers] w1] eqn:Hreg.
  unfold workgroup.Run. cbn [fst snd] in *. fold s0.
  rewrite !run_app. fold s1 s2 s3 s4 s5 s6.
  unfold workgroup.Run_result.
  assert (workgroup.drained s6 = true) as ->.
  { apply drained_spec. intros j t Hj.
    assert (workgroup.tasks s6 !! 0%nat = Some (workgroup.Returned o0))
      by (unfold s6; by apply run_Returned_kept).
    assert (workgroup.tasks s6 !! 1%nat = Some (workgroup.Returned o1))
      by (unfold s6, s5; by do 2 apply run_Returned_kept).
    assert (workgroup.tasks s6 !! 3%nat = Some (workgroup.Returned o3))
      by (unfold s6, s5; by do 2 apply run_Returned_kept).
    assert (workgroup.tasks s6 !! 4%nat = Some (workgroup.Returned o4))
      by (unfold s6, s5; by do 2 apply run_Returned_kept).
    assert (j < 5)%nat as Hlt.
    { apply lookup_lt_Some in Hj.
      destruct F6 as (_ & _ & Hlen & _). by rewrite Hlen in Hj. }
    destruct j as [| [| [| [| [| j]]]]]; [| | | | | lia];
      simplify_eq; eauto. }
  apply F6.
Qed.

End Run_completion.

(** ** The further properties on the sample environments *)

Section More_evaluation.

Import Samples.

(** A debug server whose [ListenAndServe] returns nil makes [Run] return
    nil. *)
Example Run_on_listen_nil :
  fst (Run Signal_String env_listen_nil round_robin g0 w0) = Some None.
Proof. vm_compute. reflexivity. Qed.


Lemma no_stop_before_first_return_witness :
  workgroup.first_to_terminate env_slow round_robin
    (workgroup.launch g_registered w_registered) = None /\
  forall ev,
    ev ∈ new_events w_registered
           (workgroup.world
              (workgroup.run env_slow round_robin
                 (workgroup.launch g_registered w_registered))) ->
    is_stop_event ev = false.
Proof.
  split; [vm_compute; reflexivity |].
  apply (no_stop_before_first_return Signal_String env_slow round_robin
           g0 w0).
  - intros f stop Hin. vm_compute in Hin. by apply elem_of_nil in Hin.
  - vm_compute. reflexivity.
Defined.


Lemma Run_nil_only_from_listener_witness :
  fst (Run Signal_String env_listen_nil round_robin g0 w0) = Some None /\
  exists i,
    workgroup.first_to_terminate env_listen_nil round_robin
      (workgroup.launch g_registered w_registered) = Some (i, None) /\
    ((i < 0)%nat \/ i = 0%nat \/ i = (0 + 2)%nat).
Proof.
  split; [vm_compute; reflexivity |].
  apply (Run_nil_only_from_listener Signal_String env_listen_nil
           round_robin g0 w0).
  vm_compute. reflexivity.
Defined.

Lemma stoppers_finish_after_first_return_witness :
  workgroup.first_to_terminate env_sigint (replicate 5 4%nat)
    (workgroup.launch g_registered w_registered) =
    Some (4%nat, Some "stopping on OS signal interrupt") /\
  exists k o,
    workgroup.tasks
      (workgroup.run env_sigint (replicate 5 4%nat ++ replicate k 1%nat)
         (workgroup.launch g_registered w_registered)) !! 1%nat =
    Some (workgroup.Returned o) /\
    o <> None.
Proof.
  split; [vm_compute; reflexivity |].
  apply (stoppers_finish_after_first_return Signal_String env_sigint
           (replicate 5 4%nat) g0 w0 4%nat
           (Some "stopping on OS signal interrupt") 1%nat).
  - vm_compute. reflexivity.
  - left. reflexivity.
Defined.


Lemma work_sleep_within_deadline_witness :
  0 <= 4999 < 5000 /\
  example_server.work_sleep 4999 = 9999000000 /\
  5 * time_Second <= example_server.work_sleep 4999 /\
  example_server.work_sleep 4999 <
    ShutdownTimeout (example_server.main_group tt).
Proof.
  split; [lia |].
  apply (work_sleep_within_deadline tt 4999). lia.
Defined.

Lemma Run_can_complete_witness :
  workgroup.first_to_terminate env_sigint (replicate 5 4%nat)
    (workgroup.launch g_registered w_registered) =
    Some (4%nat, Some "stopping on OS signal interrupt") /\
  exists post,
    fst (Run Signal_String env_sigint (replicate 5 4%nat ++ post) g0 w0) =
    Some (Some "stopping on OS signal interrupt").
Proof.
  split; [vm_compute; reflexivity |].
  apply (Run_can_complete Signal_String env_sigint (replicate 5 4%nat)
           g0 w0 4%nat (Some "stopping on OS signal interrupt")).
  - reflexivity.
  - intros tr server (ev & Hin & Hev). simpl. unfold listen_until_stopped.
    assert (existsb (is_stop_of server) tr = true) as ->; [| by eexists].
    apply existsb_exists. exists ev. split; [by apply list_elem_of_In |].
    exact Hev.
  - vm_compute. reflexivity.
Defined.

End More_evaluation.
